(** * WebPanel: a shallow embedding of
      src/client/common/application/webPanels/webPanel.ts

    The class [WebPanel] wraps one webview panel of the host editor.  The
    embedding keeps the fields of the class in a record, keeps the host's
    panel object in a second record (the class only holds a reference to it),
    and records every call that leaves the class (host, file system, listener)
    in a trace.  The two HTML generators are string functions.

    A JavaScript string is a sequence of 16-bit code units, and so it is
    here: [length], [substr] and [replace] count and cut code units, and
    [encodeURIComponent] throws [URIError] on a surrogate that has no
    partner.  Only [toLowerCase] is cut down: it is the ASCII part of the
    Unicode mapping, and it is used for statements about spaces alone.

    The host (the [vscode] module), the file system and the listener are
    not part of the file.  Their calls are taken to return; what they do is
    limited to what the class relies on: the host keeps the panel's title,
    column, visibility and HTML, calls the closures registered on the panel
    when the matching event occurs, reports the disposal of a panel once and
    delivers no event of a disposed panel.  The listener does not call back
    into the panel while it is being called. *)

From Stdlib Require Import List String Ascii Bool ZArith NArith Arith Lia.
From Stdlib Require Import DecimalString.
Import ListNotations.
Open Scope string_scope.
Open Scope list_scope.

Set Implicit Arguments.

(** ** JavaScript strings and the string operations used by the class *)

Module JsString.

(** A code unit: its high byte and its low byte. *)
Definition unit16 : Type := (ascii * ascii)%type.

Definition jsstring : Type := list unit16.

Definition of_ascii (c : ascii) : unit16 := (zero, c).

(** A string of ASCII text. *)
Fixpoint lit (s : string) : jsstring :=
  match s with
  | EmptyString => []
  | String c rest => of_ascii c :: lit rest
  end.

(** The number of a code unit, 0 to 65535. *)
Definition code (u : unit16) : N :=
  (256 * N_of_ascii (fst u) + N_of_ascii (snd u))%N.

Definition unit_eqb (a b : unit16) : bool :=
  andb (Ascii.eqb (fst a) (fst b)) (Ascii.eqb (snd a) (snd b)).

Definition dq : jsstring := [of_ascii (ascii_of_nat 34)].
Definition nl : jsstring := [of_ascii (ascii_of_nat 10)].
Definition space : unit16 := of_ascii (ascii_of_nat 32).

Inductive Error := TypeError | URIError.

(** How an evaluation ends: with a value or with a thrown exception. *)
Inductive Completion (A : Type) :=
| Normal (a : A)
| Abrupt (e : Error).

Arguments Normal {A} a.
Arguments Abrupt {A} e.

(** Template literals: the pieces of a template in order. *)
Definition template (pieces : list jsstring) : jsstring := List.concat pieces.

(** [Array.prototype.join]. *)
Fixpoint join (sep : jsstring) (l : list jsstring) : jsstring :=
  match l with
  | [] => []
  | [x] => x
  | x :: rest => x ++ sep ++ join sep rest
  end.

Definition lower_unit (u : unit16) : unit16 :=
  let n := code u in
  if (andb (65 <=? n) (n <=? 90))%N then of_ascii (ascii_of_N (n + 32)) else u.

(** [String.prototype.toLowerCase], on ASCII letters. *)
Definition toLowerCase (s : jsstring) : jsstring := map lower_unit s.

(** [s.substr(start)] with one argument: the rest of [s] from code unit
    [start]. *)
Definition substr (start : nat) (s : jsstring) : jsstring := skipn start s.

Fixpoint prefixb (pat s : jsstring) : bool :=
  match pat, s with
  | [], _ => true
  | _ :: _, [] => false
  | a :: pat', b :: s' => andb (unit_eqb a b) (prefixb pat' s')
  end.

(** [s.replace(pat, rep)] with a string pattern: only the first
    occurrence of [pat] is replaced. *)
Fixpoint replace (pat rep s : jsstring) : jsstring :=
  if prefixb pat s then rep ++ skipn (List.length pat) s
  else match s with
       | [] => []
       | c :: rest => c :: replace pat rep rest
       end.

(** [s.replace(/\\/g, '/')]: every backslash becomes a slash. *)
Definition backslashes_to_slashes (s : jsstring) : jsstring :=
  map (fun u => if unit_eqb u (of_ascii (ascii_of_nat 92))
                then of_ascii (ascii_of_nat 47) else u) s.

Definition is_high_surrogate (u : unit16) : bool :=
  (andb (55296 <=? code u) (code u <=? 56319))%N.

Definition is_low_surrogate (u : unit16) : bool :=
  (andb (56320 <=? code u) (code u <=? 57343))%N.

(** Code units that [encodeURIComponent] leaves alone:
    letters, digits and  - _ . ! ~ * ' ( ) *)
Definition uri_unreserved (u : unit16) : bool :=
  let n := code u in
  (orb (andb (65 <=? n) (n <=? 90))
  (orb (andb (97 <=? n) (n <=? 122))
  (orb (andb (48 <=? n) (n <=? 57))
       (existsb (N.eqb n) [45; 95; 46; 33; 126; 42; 39; 40; 41]))))%N.

(** The UTF-8 octets of a code point. *)
Definition utf8 (v : N) : list N :=
  (if v <? 128 then [v]
   else if v <? 2048 then [192 + v / 64; 128 + v mod 64]
   else if v <? 65536
        then [224 + v / 4096; 128 + (v / 64) mod 64; 128 + v mod 64]
        else [240 + v / 262144; 128 + (v / 4096) mod 64;
              128 + (v / 64) mod 64; 128 + v mod 64])%N.

Definition hex_digit (n : N) : unit16 :=
  of_ascii (ascii_of_N (if (n <? 10)%N then 48 + n else 55 + n)%N).

(** One octet as a percent sign and two upper-case hexadecimal digits. *)
Definition percent_octet (b : N) : jsstring :=
  [of_ascii (ascii_of_nat 37); hex_digit (b / 16)%N; hex_digit (b mod 16)%N].

Definition escape (v : N) : jsstring := flat_map percent_octet (utf8 v).

Definition prepend (pre : jsstring) (r : Completion jsstring)
  : Completion jsstring :=
  match r with
  | Normal x => Normal (pre ++ x)
  | Abrupt e => Abrupt e
  end.

(** [encodeURIComponent]: unreserved code units stay, every other code
    point is written as its escaped UTF-8 octets; a low surrogate that
    does not follow a high one, and a high surrogate that is not followed
    by a low one, throw [URIError]. *)
Fixpoint encodeURIComponent (s : jsstring) : Completion jsstring :=
  match s with
  | [] => Normal []
  | c :: rest =>
      if uri_unreserved c then prepend [c] (encodeURIComponent rest)
      else if is_low_surrogate c then Abrupt URIError
      else if is_high_surrogate c then
        match rest with
        | [] => Abrupt URIError
        | d :: rest' =>
            if is_low_surrogate d
            then prepend
                   (escape ((code c - 55296) * 1024 + (code d - 56320)
                            + 65536)%N)
                   (encodeURIComponent rest')
            else Abrupt URIError
        end
      else prepend (escape (code c)) (encodeURIComponent rest)
  end.

(** [array.map(f)] for an [f] that can throw: the first exception ends
    the map. *)
Fixpoint map_throwing (A B : Type) (f : A -> Completion B) (l : list A)
  : Completion (list B) :=
  match l with
  | [] => Normal []
  | x :: rest =>
      match f x with
      | Abrupt e => Abrupt e
      | Normal y =>
          match map_throwing f rest with
          | Abrupt e => Abrupt e
          | Normal ys => Normal (y :: ys)
          end
      end
  end.

(** A number in a template literal (integers only). *)
Definition show_number (z : Z) : jsstring :=
  lit (NilZero.string_of_int (Z.to_int z)).

(** A [string | undefined] in a template literal. *)
Definition show_optional (o : option jsstring) : jsstring :=
  match o with
  | Some s => s
  | None => lit "undefined"
  end.

(** Equality of strings, code unit by code unit. *)
Fixpoint jsstring_eqb (a b : jsstring) : bool :=
  match a, b with
  | [], [] => true
  | x :: a', y :: b' => andb (unit_eqb x y) (jsstring_eqb a' b')
  | _, _ => false
  end.

(** How often a code unit occurs in a string (used to state facts). *)
Definition count_char (c : unit16) (s : jsstring) : nat :=
  List.length (filter (unit_eqb c) s).

End JsString.
Import JsString.


(** ** Data model *)

(** [WebPanelMessage]: a tagged payload. *)
Record WebPanelMessage := { msg_type : jsstring; msg_payload : jsstring }.

(** [IWebPanelOptions].  The [listener] object of the options is the caller's:
    the calls the class makes on it are events of the trace. *)
Record IWebPanelOptions := {
  title : jsstring;
  viewColumn : Z;
  rootPath : jsstring;
  scripts : list jsstring;
  cwd : jsstring;
  startHttpServer : bool
}.

Definition RemappedPort : Z := 9890.

(** The three closures [load] hands to the host. *)
Inductive Handler := OnDidDispose | OnDidReceiveMessage | OnDidChangeViewState.

(** Calls that leave the class, as they appear in the trace. *)
Inductive Event :=
| CreateWebviewPanel (viewType ptitle : jsstring) (column : Z)
    (preserveFocus : bool) (enableScripts retainContextWhenHidden : bool)
    (localResourceRoots : list jsstring) (portMapping : option (Z * Z))
| PathExists (script : jsstring)
| SetHtml (content : jsstring)
| Reveal (column : Z) (preserveFocus : bool)
| PanelDispose
| PostMessage (m : WebPanelMessage)
| SetTitle (t : jsstring)
| ListenerDispose
| ListenerOnMessage (type payload : jsstring)
| ListenerOnChangeViewState.

(** The host's panel object ([WebviewPanel] with its [webview]). *)
Record WebviewPanel := {
  panel_viewType : jsstring;
  panel_title : jsstring;
  panel_viewColumn : Z;
  visible : bool;
  active : bool;
  html : jsstring;
  disposed : bool;
  subscriptions : list Handler
}.

(** The reference held in [this.panel]: the class creates one panel. *)
Inductive WebviewPanelRef := CreatedPanel.

(** State of [loadPromise]. *)
Inductive Promise := Pending | Fulfilled | Rejected (e : Error).

(** The fields of a [WebPanel] object. *)
Record WebPanel := {
  panel : option WebviewPanelRef;
  loadPromise : Promise;
  id : jsstring;
  port : option Z;
  token : option jsstring;
  options : IWebPanelOptions
}.

(** ** What the class takes from outside this file

    [asWebviewUri p] is the text of [webView.asWebviewUri(Uri.file(p))];
    [GeneratedThemeName] is [Identifiers.GeneratedThemeName];
    [badWebPanelFormatString] is the localized format string and [format]
    the string extension applied to it; [pathExists] is the answer of
    [fs.pathExists] for each path. *)
Record Env := {
  asWebviewUri : jsstring -> jsstring;
  GeneratedThemeName : jsstring;
  badWebPanelFormatString : jsstring;
  format : jsstring -> jsstring -> jsstring;
  pathExists : jsstring -> bool
}.

(** ** The HTML generators *)

Section Generators.

Variable E : Env.

(** [generateLocalReactHtml], lines 125-155. *)
Definition generateLocalReactHtml (this : WebPanel) : jsstring :=
  let uriBase := asWebviewUri E (rootPath (options this)) in
  let uris := map (asWebviewUri E) (scripts (options this)) in
  let scriptTags :=
    join nl (map (fun uri => template
      [lit "<script type="; dq; lit "text/javascript"; dq; lit " src="; dq; uri; dq; lit "></script>"]) uris) in
  template [
    lit "<!doctype html>"; nl;
    lit "        <html lang="; dq; lit "en"; dq; lit ">"; nl;
    lit "            <head>"; nl;
    lit "                <meta charset="; dq; lit "utf-8"; dq; lit ">"; nl;
    lit "                <meta name="; dq; lit "viewport"; dq; lit " content="; dq; lit "width=device-width,initial-scale=1,shrink-to-fit=no"; dq; lit ">"; nl;
    lit "                <meta http-equiv="; dq; lit "Content-Security-Policy"; dq; lit " content="; dq; lit "img-src 'self' data: https: http: blob:; default-src 'unsafe-inline' 'unsafe-eval' vscode-resource: data: https: http:;"; dq; lit ">"; nl;
    lit "                <meta name="; dq; lit "theme-color"; dq; lit " content="; dq; lit "#000000"; dq; lit ">"; nl;
    lit "                <meta name="; dq; lit "theme"; dq; lit " content="; dq; GeneratedThemeName E; dq; lit "/>"; nl;
    lit "                <title>React App</title>"; nl;
    lit "                <base href="; dq; uriBase; dq; lit "/>"; nl;
    lit "            </head>"; nl;
    lit "            <body>"; nl;
    lit "                <noscript>You need to enable JavaScript to run this app.</noscript>"; nl;
    lit "                <div id="; dq; lit "root"; dq; lit "></div>"; nl;
    lit "                <script type="; dq; lit "text/javascript"; dq; lit ">"; nl;
    lit "                    function resolvePath(relativePath) {"; nl;
    lit "                        if (relativePath && relativePath[0] == '.' && relativePath[1] != '.') {"; nl;
    lit "                            return "; dq; uriBase; dq; lit " + relativePath.substring(1);"; nl;
    lit "                        }"; nl;
    nl;
    lit "                        return "; dq; uriBase; dq; lit " + relativePath;"; nl;
    lit "                    }"; nl;
    lit "                </script>"; nl;
    lit "                "; scriptTags; nl;
    lit "            </body>"; nl;
    lit "        </html>"].

(** The part of the server page before the panel id. *)
Definition serverHtmlBeforeId (this : WebPanel) : list jsstring :=
  let uriBase := asWebviewUri E (rootPath (options this)) in
  [
    lit "<!doctype html>"; nl;
    lit "        <html lang="; dq; lit "en"; dq; lit ">"; nl;
    lit "            <head>"; nl;
    lit "                <meta charset="; dq; lit "utf-8"; dq; lit ">"; nl;
    lit "                <meta name="; dq; lit "viewport"; dq; lit " content="; dq; lit "width=device-width,initial-scale=1,shrink-to-fit=no"; dq; lit ">"; nl;
    lit "                <meta http-equiv="; dq; lit "Content-Security-Policy"; dq; lit " content="; dq; lit "img-src 'self' data: https: http: blob:; default-src 'unsafe-inline' 'unsafe-eval' vscode-resource: data: https: http:;"; dq; lit ">"; nl;
    lit "                <meta name="; dq; lit "theme-color"; dq; lit " content="; dq; lit "#000000"; dq; lit ">"; nl;
    lit "                <meta name="; dq; lit "theme"; dq; lit " content="; dq; GeneratedThemeName E; dq; lit "/>"; nl;
    lit "                <title>React App</title>"; nl;
    lit "                <base href="; dq; uriBase; dq; lit "/>"; nl;
    lit "            </head>"; nl;
    lit "            <body>"; nl;
    lit "                <script type="; dq; lit "text/javascript"; dq; lit ">"; nl;
    lit "                    const vscodeApi = acquireVsCodeApi ? acquireVsCodeApi() : undefined;"; nl;
    lit "                    window.addEventListener('message', (ev) => {"; nl;
    lit "                        const isFromFrame = ev.data && ev.data.command === 'onmessage';"; nl;
    lit "                        if (isFromFrame && vscodeApi) {"; nl;
    lit "                            window.console.log('posting to vscode');"; nl;
    lit "                            window.console.log(JSON.stringify(ev.data.data));"; nl;
    lit "                            vscodeApi.postMessage(ev.data.data);"; nl;
    lit "                        } else if (!isFromFrame) {"; nl;
    lit "                            window.console.log('posting to frame');"; nl;
    lit "                            window.console.log(ev.data.type);"; nl;
    lit "                            const hostFrame = document.getElementById('hostframe');"; nl;
    lit "                            if (hostFrame) {"; nl;
    lit "                                hostFrame.contentWindow.postMessage(ev.data, '*');"; nl;
    lit "                            }"; nl;
    lit "                        }"; nl;
    lit "                    });"; nl;
    lit "                    //# sourceURL=listener.js"; nl;
    lit "                </script>"; nl;
    lit "                <iframe id='hostframe' src="; dq; lit "http://localhost:"; show_number RemappedPort; lit "/" ].

(** The part of the server page after the panel id; [encoded] is the
    array of that name. *)
Definition serverHtmlAfterId (this : WebPanel) (encoded : list jsstring)
  : list jsstring :=
  [
    lit "?scripts="; join (lit "%") encoded; lit "&cwd="; cwd (options this); lit "&rootPath="; rootPath (options this); lit "&token="; show_optional (token this); dq; lit " frameborder="; dq; lit "0"; dq; lit " style="; dq; lit "left: 0px; display: block; margin: 0px; overflow: hidden; position: absolute; width: 100%; height: 100%; visibility: visible;"; dq; lit "/>"; nl;
    lit "            </body>"; nl;
    lit "        </html>"].

(** The array [encoded] of [generateServerReactHtml] (lines 160-161): each
    script cut at the length of the root path behind a dot, its
    backslashes turned, then encoded; encoding can throw. *)
Definition encodedScripts (this : WebPanel) : Completion (list jsstring) :=
  let relativeScripts :=
    map (fun s => lit "." ++ substr (List.length (rootPath (options this))) s)
        (scripts (options this)) in
  map_throwing (fun s => encodeURIComponent (backslashes_to_slashes s))
               relativeScripts.

(** [generateServerReactHtml], lines 158-197: one template literal, split
    here at the hole that holds [this.id]. *)
Definition generateServerReactHtml (this : WebPanel) : Completion jsstring :=
  match encodedScripts this with
  | Abrupt e => Abrupt e
  | Normal encoded =>
      Normal (template (serverHtmlBeforeId this ++ [id this]
                        ++ serverHtmlAfterId this encoded))
  end.

End Generators.

(** ** The object, the host's panel and the trace *)

(** [awaiting] holds the calls of [show] suspended at [await this.loadPromise]
    (their [preserveFocus] arguments, oldest first); [trace] has the newest
    event first; [disposableRegistry] holds what [load] pushed. *)
Record World := {
  this : WebPanel;
  host : WebviewPanel;
  disposableRegistry : list Handler;
  awaiting : list bool;
  trace : list Event
}.

Definition set_panel (p : option WebviewPanelRef) (o : WebPanel) : WebPanel :=
  {| panel := p; loadPromise := loadPromise o; id := id o; port := port o;
     token := token o; options := options o |}.

Definition set_loadPromise (p : Promise) (o : WebPanel) : WebPanel :=
  {| panel := panel o; loadPromise := p; id := id o; port := port o;
     token := token o; options := options o |}.


Definition set_html (h : jsstring) (p : WebviewPanel) : WebviewPanel :=
  {| panel_viewType := panel_viewType p; panel_title := panel_title p;
     panel_viewColumn := panel_viewColumn p; visible := visible p;
     active := active p; html := h; disposed := disposed p;
     subscriptions := subscriptions p |}.

Definition set_title (t : jsstring) (p : WebviewPanel) : WebviewPanel :=
  {| panel_viewType := panel_viewType p; panel_title := t;
     panel_viewColumn := panel_viewColumn p; visible := visible p;
     active := active p; html := html p; disposed := disposed p;
     subscriptions := subscriptions p |}.

Definition set_disposed (p : WebviewPanel) : WebviewPanel :=
  {| panel_viewType := panel_viewType p; panel_title := panel_title p;
     panel_viewColumn := panel_viewColumn p; visible := visible p;
     active := active p; html := html p; disposed := true;
     subscriptions := subscriptions p |}.

Definition set_view_state (v a : bool) (column : Z) (p : WebviewPanel)
  : WebviewPanel :=
  {| panel_viewType := panel_viewType p; panel_title := panel_title p;
     panel_viewColumn := column; visible := v;
     active := a; html := html p; disposed := disposed p;
     subscriptions := subscriptions p |}.

Definition add_subscription (h : Handler) (p : WebviewPanel) : WebviewPanel :=
  {| panel_viewType := panel_viewType p; panel_title := panel_title p;
     panel_viewColumn := panel_viewColumn p; visible := visible p;
     active := active p; html := html p; disposed := disposed p;
     subscriptions := subscriptions p ++ [h] |}.

Definition with_this (f : WebPanel -> WebPanel) (w : World) : World :=
  {| this := f (this w); host := host w;
     disposableRegistry := disposableRegistry w; awaiting := awaiting w;
     trace := trace w |}.

Definition with_host (f : WebviewPanel -> WebviewPanel) (w : World) : World :=
  {| this := this w; host := f (host w);
     disposableRegistry := disposableRegistry w; awaiting := awaiting w;
     trace := trace w |}.

Definition with_awaiting (l : list bool) (w : World) : World :=
  {| this := this w; host := host w;
     disposableRegistry := disposableRegistry w; awaiting := l;
     trace := trace w |}.

Definition registry_push (h : Handler) (w : World) : World :=
  {| this := this w; host := host w;
     disposableRegistry := disposableRegistry w ++ [h]; awaiting := awaiting w;
     trace := trace w |}.

Definition emit (e : Event) (w : World) : World :=
  {| this := this w; host := host w;
     disposableRegistry := disposableRegistry w; awaiting := awaiting w;
     trace := e :: trace w |}.

(** ** The host side *)

Inductive HostEvent :=
| DidDispose
| DidReceiveMessage (m : WebPanelMessage)
| DidChangeViewState.

(** The bodies of the three closures of [load] (lines 99-112); a closure
    answers the event it was registered for. *)
Definition call_handler (ev : HostEvent) (h : Handler) (w : World) : World :=
  match ev, h with
  | DidDispose, OnDidDispose =>
      emit ListenerDispose (with_this (set_panel None) w)
  | DidReceiveMessage m, OnDidReceiveMessage =>
      emit (ListenerOnMessage (msg_type m) (msg_payload m)) w
  | DidChangeViewState, OnDidChangeViewState =>
      emit ListenerOnChangeViewState w
  | _, _ => w
  end.

(** The host delivers an event to every closure registered on the panel. *)
Definition fire (ev : HostEvent) (w : World) : World :=
  fold_left (fun acc h => call_handler ev h acc) (subscriptions (host w)) w.

(** The panel goes away (closed by the user or by [dispose]): the host
    reports it once. *)
Definition host_dispose (w : World) : World :=
  if disposed (host w) then w
  else fire DidDispose (with_host set_disposed w).

(** [panel.dispose()]. *)
Definition panel_dispose (w : World) : World :=
  host_dispose (emit PanelDispose w).

(** [panel.reveal(column, preserveFocus)]. *)
Definition panel_reveal (column : Z) (preserveFocus : bool) (w : World) : World :=
  emit (Reveal column preserveFocus) w.

(** [panel.webview.postMessage(message)]. *)
Definition webview_postMessage (m : WebPanelMessage) (w : World) : World :=
  emit (PostMessage m) w.

(** [panel.webview.html = content]. *)
Definition webview_set_html (content : jsstring) (w : World) : World :=
  emit (SetHtml content) (with_host (set_html content) w).

(** [panel.title = t]. *)
Definition panel_set_title (t : jsstring) (w : World) : World :=
  emit (SetTitle t) (with_host (set_title t) w).

(** [this.disposableRegistry.push(panel.onX(closure))]. *)
Definition subscribe (h : Handler) (w : World) : World :=
  registry_push h (with_host (add_subscription h) w).

(** ** The class *)

Inductive Value := VUndefined | VBool (b : bool) | VString (s : jsstring).

(** How a call ends for its caller: it returns, or an exception (for the
    asynchronous [show]: a rejected promise) reaches the caller. *)
Inductive Outcome := Returned (v : Value) | Raised (e : Error).

Inductive Result := Ok (w : World) | Throw (e : Error).

(** A [number | undefined] in a condition. *)
Definition truthy_port (p : option Z) : bool :=
  match p with
  | Some n => negb (n =? 0)%Z
  | None => false
  end.

Section Class.

Variable E : Env.

(** [load] up to its [await] (lines 87-89): the existence checks are
    started and the function is suspended; without a panel it is done. *)
Definition load_call (w : World) : World :=
  match panel (this w) with
  | Some _ =>
      with_this (set_loadPromise Pending)
        (fold_left (fun acc s => emit (PathExists s) acc)
                   (scripts (options (this w))) w)
  | None => with_this (set_loadPromise Fulfilled) w
  end.

(** The page the success branch of [load] assigns (lines 94-96); the
    server page can throw. *)
Definition appHtml (this0 : WebPanel) : Completion jsstring :=
  if startHttpServer (options this0)
  then generateServerReactHtml E this0
  else Normal (generateLocalReactHtml E this0).

(** The page of the error branch of [load] (lines 118-119). *)
Definition errorHtml (o : IWebPanelOptions) : jsstring :=
  format E (badWebPanelFormatString E) (join (lit ", ") (scripts o)).

(** [load] after its [await] (lines 89-120).  [this.panel] is read again
    after the suspension; reading [webview] of [undefined] throws, and so
    can the server page, before anything is assigned. *)
Definition load_body (w : World) : Result :=
  let o := options (this w) in
  let localFilesExist := map (pathExists E) (scripts o) in
  if forallb (fun exists_ => Bool.eqb exists_ true) localFilesExist then
    match panel (this w) with
    | None => Throw TypeError
    | Some _ =>
        match appHtml (this w) with
        | Abrupt e => Throw e
        | Normal page =>
            let w1 := webview_set_html page w in
            let w2 := subscribe OnDidDispose w1 in
            let w3 := subscribe OnDidReceiveMessage w2 in
            let w4 := subscribe OnDidChangeViewState w3 in
            Ok (emit ListenerOnChangeViewState w4)
        end
    end
  else
    match panel (this w) with
    | None => Throw TypeError
    | Some _ => Ok (webview_set_html (errorHtml o) w)
    end.

(** The suspended [load] continues and settles [loadPromise]. *)
Definition load_resume (w : World) : World :=
  match load_body w with
  | Ok w' => with_this (set_loadPromise Fulfilled) w'
  | Throw e => with_this (set_loadPromise (Rejected e)) w
  end.

(** The constructor (lines 21-39); [uuid] is the value [uuid()] returned.
    The new panel is created in the background ([preserveFocus: true]):
    shown, not focused. *)
Definition construct (port0 : option Z) (token0 : option jsstring)
    (options0 : IWebPanelOptions) (uuid : jsstring) : World :=
  load_call
    {| this := {| panel := Some CreatedPanel; loadPromise := Pending;
                  id := uuid; port := port0; token := token0;
                  options := options0 |};
       host := {| panel_viewType :=
                    replace (lit " ") [] (toLowerCase (title options0));
                  panel_title := title options0;
                  panel_viewColumn := viewColumn options0;
                  visible := true; active := false;
                  html := []; disposed := false;
                  subscriptions := [] |};
       disposableRegistry := [];
       awaiting := [];
       trace := [CreateWebviewPanel
                   (replace (lit " ") [] (toLowerCase (title options0)))
                   (title options0) (viewColumn options0) true
                   true true
                   [rootPath options0]
                   (if truthy_port port0
                    then match port0 with
                         | Some p => Some (RemappedPort, p)
                         | None => None
                         end
                    else None)] |}.

(** [show] up to its [await] (lines 41-42). *)
Definition show_call (preserveFocus : bool) (w : World) : World :=
  with_awaiting (awaiting w ++ [preserveFocus]) w.

(** [show] after its [await] (lines 42-46): nothing while [loadPromise] is
    pending. *)
Definition show_resume (preserveFocus : bool) (w : World)
  : option (World * Outcome) :=
  match loadPromise (this w) with
  | Pending => None
  | Rejected e => Some (w, Raised e)
  | Fulfilled =>
      match panel (this w) with
      | Some _ =>
          Some (panel_reveal (panel_viewColumn (host w)) preserveFocus w,
                Returned VUndefined)
      | None => Some (w, Returned VUndefined)
      end
  end.

(** [updateCwd] (lines 48-54): the guarded block is empty. *)
Definition updateCwd (_cwd : jsstring) (w : World) : World * Outcome :=
  if andb (startHttpServer (options (this w))) (truthy_port (port (this w)))
  then (w, Returned VUndefined)
  else (w, Returned VUndefined).

(** [close] (lines 56-60). *)
Definition close (w : World) : World * Outcome :=
  match panel (this w) with
  | Some _ => (panel_dispose w, Returned VUndefined)
  | None => (w, Returned VUndefined)
  end.

(** [isVisible] (lines 62-64). *)
Definition isVisible (w : World) : World * Outcome :=
  match panel (this w) with
  | Some _ => (w, Returned (VBool (visible (host w))))
  | None => (w, Returned (VBool false))
  end.

(** [isActive] (lines 66-68). *)
Definition isActive (w : World) : World * Outcome :=
  match panel (this w) with
  | Some _ => (w, Returned (VBool (active (host w))))
  | None => (w, Returned (VBool false))
  end.

(** [postMessage] (lines 70-74); a host panel always has its [webview]. *)
Definition postMessage (message : WebPanelMessage) (w : World)
  : World * Outcome :=
  match panel (this w) with
  | Some _ => (webview_postMessage message w, Returned VUndefined)
  | None => (w, Returned VUndefined)
  end.

(** [get title] (lines 76-78). *)
Definition get_title (w : World) : World * Outcome :=
  match panel (this w) with
  | Some _ => (w, Returned (VString (panel_title (host w))))
  | None => (w, Returned (VString []))
  end.

(** [set title] (lines 80-84). *)
Definition set_title_prop (newTitle : jsstring) (w : World) : World * Outcome :=
  match panel (this w) with
  | Some _ => (panel_set_title newTitle w, Returned VUndefined)
  | None => (w, Returned VUndefined)
  end.

(** ** Executions

    What can happen to a panel after construction: a caller uses a public
    member, a suspended asynchronous function continues, or the host
    delivers an event (the panel was closed, the page posted a message, the
    panel's visibility, focus or column changed).  JavaScript runs each of
    these to completion before the next one starts. *)
Inductive Label :=
| CallShow (preserveFocus : bool)
| ResumeShow
| ResumeLoad
| CallUpdateCwd (cwd0 : jsstring)
| CallClose
| CallIsVisible
| CallIsActive
| CallPostMessage (m : WebPanelMessage)
| GetTitle
| SetTitleTo (t : jsstring)
| HostDisposes
| HostMessage (m : WebPanelMessage)
| HostViewState (v a : bool) (column : Z).

(** One step; [None] when the step cannot happen in this state (a
    continuation whose promise is pending, an event of a disposed panel). *)
Definition step (l : Label) (w : World) : option (World * Outcome) :=
  match l with
  | CallShow pf => Some (show_call pf w, Returned VUndefined)
  | ResumeShow =>
      match awaiting w with
      | [] => None
      | pf :: rest => show_resume pf (with_awaiting rest w)
      end
  | ResumeLoad =>
      match loadPromise (this w) with
      | Pending => Some (load_resume w, Returned VUndefined)
      | _ => None
      end
  | CallUpdateCwd c => Some (updateCwd c w)
  | CallClose => Some (close w)
  | CallIsVisible => Some (isVisible w)
  | CallIsActive => Some (isActive w)
  | CallPostMessage m => Some (postMessage m w)
  | GetTitle => Some (get_title w)
  | SetTitleTo t => Some (set_title_prop t w)
  | HostDisposes =>
      if disposed (host w) then None
      else Some (host_dispose w, Returned VUndefined)
  | HostMessage m =>
      if disposed (host w) then None
      else Some (fire (DidReceiveMessage m) w, Returned VUndefined)
  | HostViewState v a column =>
      if disposed (host w) then None
      else Some (fire DidChangeViewState
                   (with_host (set_view_state v a column) w),
                 Returned VUndefined)
  end.

(** A sequence of steps, with the outcomes of the steps in order. *)
Fixpoint run (ls : list Label) (w : World) : option (World * list Outcome) :=
  match ls with
  | [] => Some (w, [])
  | l :: rest =>
      match step l w with
      | None => None
      | Some (w1, o) =>
          match run rest w1 with
          | None => None
          | Some (w2, os) => Some (w2, o :: os)
          end
      end
  end.

(** The states a panel built by the constructor can be in. *)
Definition reachable (port0 : option Z) (token0 : option jsstring)
    (options0 : IWebPanelOptions) (uuid : jsstring) (w : World) : Prop :=
  exists ls os, run ls (construct port0 token0 options0 uuid) = Some (w, os).

End Class.

Arguments generateLocalReactHtml : simpl never.
Arguments generateServerReactHtml : simpl never.
Arguments appHtml : simpl never.

(** ** Observations on traces *)

Definition is_SetHtml (e : Event) : bool :=
  match e with SetHtml _ => true | _ => false end.

Definition is_Reveal (e : Event) : bool :=
  match e with Reveal _ _ => true | _ => false end.

Definition is_ListenerDispose (e : Event) : bool :=
  match e with ListenerDispose => true | _ => false end.

Definition is_PathExists (e : Event) : bool :=
  match e with PathExists _ => true | _ => false end.

Definition count (p : Event -> bool) (t : list Event) : nat :=
  List.length (filter p t).

(** Every [Reveal] of the trace (newest event first) has an HTML
    assignment among the events before it. *)
Fixpoint reveal_after_html (t : list Event) : bool :=
  match t with
  | [] => true
  | e :: older =>
      andb (if is_Reveal e then existsb is_SetHtml older else true)
           (reveal_after_html older)
  end.

(** The members of the public interface ([show] in its two halves). *)
Definition public_member (l : Label) : bool :=
  match l with
  | CallShow _ | ResumeShow | CallUpdateCwd _ | CallClose | CallIsVisible
  | CallIsActive | CallPostMessage _ | GetTitle | SetTitleTo _ => true
  | ResumeLoad | HostDisposes | HostMessage _ | HostViewState _ _ _ => false
  end.


(** ** A sample environment and sample options, for the examples *)

Definition sample_env : Env :=
  {| asWebviewUri := fun p => lit "vscode-resource:" ++ p;
     GeneratedThemeName := lit "ipython-theme";
     badWebPanelFormatString := lit "<h1>{0} is not a valid file name</h1>";
     format := fun f a => replace (lit "{0}") a f;
     pathExists := fun p => jsstring_eqb p (lit "/ext/out/index.js") |}.

Definition sample_options : IWebPanelOptions :=
  {| title := lit "Data Viewer - my frame";
     viewColumn := 2;
     rootPath := lit "/ext/out";
     scripts := [lit "/ext/out/index.js"];
     cwd := lit "/home/u";
     startHttpServer := false |}.

Definition sample_server_options : IWebPanelOptions :=
  {| title := lit "Python Interactive";
     viewColumn := 2;
     rootPath := lit "/ext/out";
     scripts := [lit "/ext/out/index.js"];
     cwd := lit "/home/u";
     startHttpServer := true |}.

Definition sample_server_missing_options : IWebPanelOptions :=
  {| title := lit "Plot Viewer";
     viewColumn := 1;
     rootPath := lit "/ext/out";
     scripts := [lit "/ext/out/index.js"; lit "/ext/out/absent.js"];
     cwd := lit "/home/u";
     startHttpServer := true |}.

(** A script in a directory named by U+1F600 (two code units, a surrogate
    pair), on a disk that has every file, with a root path that is two
    code units long: the cut of [substr] falls inside the pair. *)
Definition astral_script : jsstring :=
  lit "/" ++ [(ascii_of_nat 216, ascii_of_nat 61); (ascii_of_nat 222, zero)]
  ++ lit "/index.js".

Definition astral_env : Env :=
  {| asWebviewUri := asWebviewUri sample_env;
     GeneratedThemeName := GeneratedThemeName sample_env;
     badWebPanelFormatString := badWebPanelFormatString sample_env;
     format := format sample_env;
     pathExists := fun _ => true |}.

Definition astral_options : IWebPanelOptions :=
  {| title := lit "Astral";
     viewColumn := 1;
     rootPath := lit "/r";
     scripts := [astral_script];
     cwd := lit "/home/u";
     startHttpServer := true |}.

Definition sample_missing_options : IWebPanelOptions :=
  {| title := lit "Plot Viewer";
     viewColumn := 1;
     rootPath := lit "/ext/out";
     scripts := [lit "/ext/out/index.js"; lit "/ext/out/absent.js"];
     cwd := lit "/home/u";
     startHttpServer := false |}.

(** ** Names for parts of the code used in the statements *)

(** Some declared script path does not exist. *)
Definition some_script_missing (E : Env) (o : IWebPanelOptions) : Prop :=
  exists s, In s (scripts o) /\ pathExists E s = false.

(** [fire] over an explicit list of closures. *)
Definition fire_list (ev : HostEvent) (l : list Handler) (w : World) : World :=
  fold_left (fun acc h => call_handler ev h acc) l w.



(** ** The invariant of executions

    What holds of every state a constructed panel can be in: the
    constructor's arguments stay in place; while [loadPromise] is pending
    the panel reference is held, nothing is registered with the host and no
    HTML is assigned; the same holds once it is rejected, which happens only
    with every script present and in serve mode; once it is fulfilled the
    HTML has been assigned once and the closures are registered exactly on
    the success branch; the reference is cleared exactly when the listener
    has been disposed, which happens at most once. *)
Record inv (E : Env) (p : option Z) (t : option jsstring)
    (o : IWebPanelOptions) (u : jsstring) (w : World) : Prop := {
  inv_options : options (this w) = o;
  inv_id : id (this w) = u;
  inv_port : port (this w) = p;
  inv_token : token (this w) = t;
  inv_pending :
    loadPromise (this w) = Pending ->
    panel (this w) = Some CreatedPanel /\ subscriptions (host w) = [] /\
    count is_SetHtml (trace w) = 0 /\ count is_Reveal (trace w) = 0;
  inv_rejected :
    forall e, loadPromise (this w) = Rejected e ->
    panel (this w) = Some CreatedPanel /\ subscriptions (host w) = [] /\
    count is_SetHtml (trace w) = 0 /\ count is_Reveal (trace w) = 0 /\
    forallb (pathExists E) (scripts o) = true /\ startHttpServer o = true;
  inv_unassigned :
    loadPromise (this w) <> Fulfilled -> html (host w) = [];
  inv_fulfilled :
    loadPromise (this w) = Fulfilled ->
    count is_SetHtml (trace w) = 1 /\
    subscriptions (host w) =
      (if forallb (pathExists E) (scripts o)
       then [OnDidDispose; OnDidReceiveMessage; OnDidChangeViewState]
       else []);
  inv_panel_none :
    panel (this w) = None ->
    disposed (host w) = true /\ count is_ListenerDispose (trace w) = 1;
  inv_panel_some :
    panel (this w) = Some CreatedPanel ->
    count is_ListenerDispose (trace w) = 0;
  inv_reveal : reveal_after_html (trace w) = true;
  inv_path : filter is_PathExists (trace w) = map PathExists (rev (scripts o))
}.

(** ** Further observations, for the properties beyond the claims *)

Definition is_listener_call (e : Event) : bool :=
  match e with
  | ListenerDispose | ListenerOnMessage _ _ | ListenerOnChangeViewState => true
  | _ => false
  end.

Definition is_show_call (l : Label) : bool :=
  match l with CallShow _ => true | _ => false end.

(** The closures of the success branch of [load], in registration order. *)
Definition load_closures : list Handler :=
  [OnDidDispose; OnDidReceiveMessage; OnDidChangeViewState].

(** What holds of every reachable state besides [inv]: the registry holds
    what was registered with the host, and the listener has not been called
    unless the load has been fulfilled with every script present. *)
Record inv_listener (E : Env) (o : IWebPanelOptions) (w : World) : Prop := {
  invl_registry : disposableRegistry w = subscriptions (host w);
  invl_unsettled :
    loadPromise (this w) <> Fulfilled ->
    count is_listener_call (trace w) = 0;
  invl_missing :
    forallb (pathExists E) (scripts o) = false ->
    count is_listener_call (trace w) = 0
}.

(** The title a trace leaves on the panel: the newest [SetTitle], or the
    title the panel was created with. *)
Fixpoint current_title (initial : jsstring) (t : list Event) : jsstring :=
  match t with
  | [] => initial
  | SetTitle s :: _ => s
  | _ :: older => current_title initial older
  end.

(** Every code unit of a string satisfies a test. *)
Definition string_forall (q : unit16 -> bool) (s : jsstring) : bool :=
  forallb q s.

(** The code units [encodeURIComponent] can produce: the ones it leaves
    alone and the percent sign of its escapes. *)
Definition uri_output_char (c : unit16) : bool :=
  orb (uri_unreserved c) (unit_eqb c (of_ascii (ascii_of_nat 37))).

(** No surrogate without its partner: every high surrogate is followed by
    a low one and every low surrogate follows a high one. *)
Fixpoint well_formed (s : jsstring) : bool :=
  match s with
  | [] => true
  | c :: rest =>
      if is_low_surrogate c then false
      else if is_high_surrogate c then
        match rest with
        | [] => false
        | d :: rest' => andb (is_low_surrogate d) (well_formed rest')
        end
      else well_formed rest
  end.

(** The array [relativeScripts] of [generateServerReactHtml] (line 160). *)
Definition relativeScripts (this : WebPanel) : list jsstring :=
  map (fun s => lit "." ++ substr (List.length (rootPath (options this))) s)
      (scripts (options this)).

(** The value of [scripts=] in the iframe URL (lines 160-161 and 194). *)
Definition scriptsQuery (this : WebPanel) : Completion jsstring :=
  match encodedScripts this with
  | Abrupt e => Abrupt e
  | Normal encoded => Normal (join (lit "%") encoded)
  end.

(** One element of the local page (line 152). *)
Definition scriptTag (uri : jsstring) : jsstring :=
  template [lit "<script type="; dq; lit "text/javascript"; dq; lit " src=";
            dq; uri; dq; lit "></script>"].

(** The [src] of the iframe of the server page (line 194), for a given
    value of [scripts=]. *)
Definition iframeUrl (this : WebPanel) (query : jsstring) : jsstring :=
  template [lit "http://localhost:"; show_number RemappedPort; lit "/";
            id this; lit "?scripts="; query;
            lit "&cwd="; cwd (options this);
            lit "&rootPath="; rootPath (options this);
            lit "&token="; show_optional (token this)].

(** An object that has the given root path and nothing else of interest. *)
Definition blank_panel (root : jsstring) : WebPanel :=
  {| panel := None; loadPromise := Pending; id := []; port := None;
     token := None;
     options := {| title := []; viewColumn := 0; rootPath := root;
                   scripts := []; cwd := [];
                   startHttpServer := true |} |}.



(** ** The code on sample inputs *)

Example viewType_sample :
  panel_viewType (host (construct None None sample_options (lit "panel-3")))
  = lit "dataviewer - my frame".
Proof. reflexivity. Qed.

Example encodeURIComponent_sample :
  encodeURIComponent (backslashes_to_slashes (lit ".\bundle dir\index.js"))
  = Normal (lit ".%2Fbundle%20dir%2Findex.js").
Proof. reflexivity. Qed.

(** U+00F6 and U+20AC are written as their UTF-8 octets; U+1F600, a
    surrogate pair, as four octets; half a pair throws. *)
Example encodeURIComponent_unicode_sample :
  encodeURIComponent [(zero, ascii_of_nat 246); (ascii_of_nat 32, ascii_of_nat 172)]
  = Normal (lit "%C3%B6%E2%82%AC") /\
  encodeURIComponent [(ascii_of_nat 216, ascii_of_nat 61); (ascii_of_nat 222, zero)]
  = Normal (lit "%F0%9F%98%80") /\
  encodeURIComponent [(ascii_of_nat 222, zero)] = Abrupt URIError /\
  encodeURIComponent [(ascii_of_nat 216, ascii_of_nat 61); of_ascii "a"]
  = Abrupt URIError.
Proof. repeat split. Qed.

Example constructor_trace_sample :
  trace (construct (Some 8080%Z) None sample_missing_options (lit "panel-1"))
  = [PathExists (lit "/ext/out/absent.js"); PathExists (lit "/ext/out/index.js");
     CreateWebviewPanel (lit "plotviewer") (lit "Plot Viewer") 1 true true true
       [lit "/ext/out"] (Some (9890%Z, 8080%Z))].
Proof. reflexivity. Qed.

Example show_then_load_then_reveal_sample :
  option_map (fun r => (firstn 3 (trace (fst r)), snd r))
    (run sample_env [CallShow true; ResumeLoad; ResumeShow]
       (construct None None sample_options (lit "panel-3")))
  = Some ([Reveal 2 true; ListenerOnChangeViewState;
           SetHtml (generateLocalReactHtml sample_env
                      (this (construct None None sample_options
                               (lit "panel-3"))))],
          [Returned VUndefined; Returned VUndefined; Returned VUndefined]).
Proof. vm_compute. reflexivity. Qed.

(** A panel closed by the host while the load is still suspended: the
    closure is registered afterwards, on a panel that reports nothing more. *)
Example disposal_before_load_sample :
  option_map (fun r => (panel (this (fst r)),
                        count is_ListenerDispose (trace (fst r))))
    (run sample_env [HostDisposes; ResumeLoad]
       (construct None None sample_options (lit "panel-3")))
  = Some (Some CreatedPanel, 0).
Proof. vm_compute. reflexivity. Qed.

(** The cut of [substr] inside a surrogate pair: the server page throws,
    the load is rejected with nothing assigned, and [show] is rejected. *)
Example surrogate_cut_sample :
  option_map (fun r => (loadPromise (this (fst r)), html (host (fst r)),
                        count is_SetHtml (trace (fst r)), snd r))
    (run astral_env [CallShow true; ResumeLoad; ResumeShow]
       (construct None None astral_options (lit "panel-5")))
  = Some (Rejected URIError, [], 0,
          [Returned VUndefined; Returned VUndefined; Raised URIError]).
Proof. vm_compute. reflexivity. Qed.

(** ** Reachability *)

Lemma run_app (E : Env) (l1 l2 : list Label) (w : World) :
  run E (l1 ++ l2)%list w =
  match run E l1 w with
  | None => None
  | Some (w1, os1) =>
      match run E l2 w1 with
      | None => None
      | Some (w2, os2) => Some (w2, (os1 ++ os2)%list)
      end
  end.
Proof.
  revert w; induction l1 as [|l l1 IH]; intros w; simpl.
  - destruct (run E l2 w) as [[w2 os2]|]; reflexivity.
  - destruct (step E l w) as [[w1 o]|]; [|reflexivity].
    rewrite IH. destruct (run E l1 w1) as [[w1' os1]|]; [|reflexivity].
    destruct (run E l2 w1') as [[w2 os2]|]; reflexivity.
Qed.

Lemma reachable_construct (E : Env) p t o u :
  reachable E p t o u (construct p t o u).
Proof. exists [], []. reflexivity. Qed.

Lemma reachable_step (E : Env) p t o u w l w' oc :
  reachable E p t o u w -> step E l w = Some (w', oc) ->
  reachable E p t o u w'.
Proof.
  intros (ls & os & Hrun) Hstep.
  exists (ls ++ [l])%list, (os ++ [oc])%list.
  rewrite run_app, Hrun. simpl. rewrite Hstep. reflexivity.
Qed.

(** Induction over executions: a property of the constructed state kept by
    every step holds in every reachable state. *)
Lemma reachable_ind (E : Env) p t o u (P : World -> Prop) :
  P (construct p t o u) ->
  (forall w l w' oc,
      reachable E p t o u w -> P w -> step E l w = Some (w', oc) -> P w') ->
  forall w, reachable E p t o u w -> P w.
Proof.
  intros Hinit Hstep w (ls & os & Hrun).
  revert w os Hrun.
  induction ls as [|l ls IH] using rev_ind; intros w os Hrun.
  - simpl in Hrun. inversion Hrun; subst. exact Hinit.
  - rewrite run_app in Hrun.
    destruct (run E ls (construct p t o u)) as [[w1 os1]|] eqn:H1;
      [|discriminate].
    simpl in Hrun.
    destruct (step E l w1) as [[w2 oc]|] eqn:H2; [|discriminate].
    inversion Hrun; subst.
    apply (Hstep w1 l w oc); [exists ls, os1; exact H1 | eapply IH; eauto | exact H2].
Qed.

(** ** The existence checks of the constructor *)

Lemma fold_emit_PathExists (l : list jsstring) (w : World) :
  fold_left (fun acc s => emit (PathExists s) acc) l w =
  {| this := this w; host := host w;
     disposableRegistry := disposableRegistry w; awaiting := awaiting w;
     trace := (rev (map PathExists l) ++ trace w)%list |}.
Proof.
  revert w; induction l as [|s l IH]; intros w; simpl.
  - destruct w; reflexivity.
  - rewrite IH. simpl. rewrite <- app_assoc. reflexivity.
Qed.

Lemma filter_PathExists_other (q : Event -> bool) (l : list jsstring) :
  (forall s, q (PathExists s) = false) ->
  filter q (map PathExists l) = [].
Proof.
  intros Hq. induction l as [|s l IH]; simpl; [reflexivity|].
  rewrite Hq. exact IH.
Qed.

Lemma filter_PathExists_self (l : list jsstring) :
  filter is_PathExists (map PathExists l) = map PathExists l.
Proof.
  induction l as [|s l IH]; simpl; [reflexivity|]. rewrite IH. reflexivity.
Qed.

Lemma reveal_after_html_app (pre t : list Event) :
  filter is_Reveal pre = [] ->
  reveal_after_html (pre ++ t)%list = reveal_after_html t.
Proof.
  induction pre as [|e pre IH]; simpl; intros H; [reflexivity|].
  destruct (is_Reveal e); [discriminate|]. simpl. exact (IH H).
Qed.

Lemma construct_trace (p : option Z) (t : option jsstring)
    (o : IWebPanelOptions) (u : jsstring) :
  exists c, trace (construct p t o u)
            = (rev (map PathExists (scripts o)) ++ [c])%list /\
            is_SetHtml c = false /\ is_Reveal c = false /\
            is_ListenerDispose c = false /\ is_PathExists c = false.
Proof.
  unfold construct, load_call. simpl. rewrite fold_emit_PathExists. simpl.
  eexists. split; [reflexivity|]. repeat split.
Qed.

Lemma construct_fields (p : option Z) (t : option jsstring)
    (o : IWebPanelOptions) (u : jsstring) :
  this (construct p t o u) =
    {| panel := Some CreatedPanel; loadPromise := Pending; id := u;
       port := p; token := t; options := o |} /\
  subscriptions (host (construct p t o u)) = [] /\
  disposed (host (construct p t o u)) = false /\
  html (host (construct p t o u)) = [] /\
  awaiting (construct p t o u) = [].
Proof.
  unfold construct, load_call. simpl. rewrite fold_emit_PathExists. simpl.
  repeat split.
Qed.

Lemma inv_construct (E : Env) p t o u : inv E p t o u (construct p t o u).
Proof.
  destruct (construct_fields p t o u) as (Hthis & Hsub & Hdis & Hhtml & _).
  destruct (construct_trace p t o u) as (c & Htr & Hc1 & Hc2 & Hc3 & Hc4).
  assert (Hcount : forall q, (forall s, q (PathExists s) = false) ->
                             q c = false ->
                             count q (trace (construct p t o u)) = 0).
  { intros q Hq Hqc. unfold count. rewrite Htr, filter_app, <- map_rev.
    rewrite filter_PathExists_other by exact Hq. simpl. rewrite Hqc.
    reflexivity. }
  constructor; rewrite ?Hthis; cbn [panel loadPromise id port token options];
    try reflexivity; try discriminate.
  - intros _. repeat split; [exact Hsub | |]; apply Hcount; auto.
  - intros _. exact Hhtml.
  - intros _. apply Hcount; auto.
  - rewrite Htr. rewrite reveal_after_html_app.
    + simpl. rewrite Hc2. reflexivity.
    + rewrite <- map_rev. apply filter_PathExists_other. reflexivity.
  - rewrite Htr, filter_app, <- map_rev, filter_PathExists_self. simpl.
    rewrite Hc4. rewrite app_nil_r. reflexivity.
Qed.

(** ** The load step on its three outcomes *)

Lemma every_true_map (f : jsstring -> bool) (l : list jsstring) :
  forallb (fun exists_ => Bool.eqb exists_ true) (map f l) = forallb f l.
Proof.
  induction l as [|s l IH]; simpl; [reflexivity|].
  rewrite IH. destruct (f s); reflexivity.
Qed.


Lemma load_resume_success (E : Env) (w : World) (page : jsstring) :
  panel (this w) = Some CreatedPanel ->
  forallb (pathExists E) (scripts (options (this w))) = true ->
  appHtml E (this w) = Normal page ->
  load_resume E w =
  with_this (set_loadPromise Fulfilled)
    (emit ListenerOnChangeViewState
       (subscribe OnDidChangeViewState
          (subscribe OnDidReceiveMessage
             (subscribe OnDidDispose
                (webview_set_html page w))))).
Proof.
  intros Hp Hall Hpage. unfold load_resume, load_body.
  rewrite every_true_map, Hall, Hp, Hpage. reflexivity.
Qed.

Lemma load_resume_throw (E : Env) (w : World) (e : Error) :
  panel (this w) = Some CreatedPanel ->
  forallb (pathExists E) (scripts (options (this w))) = true ->
  appHtml E (this w) = Abrupt e ->
  load_resume E w = with_this (set_loadPromise (Rejected e)) w.
Proof.
  intros Hp Hall Hpage. unfold load_resume, load_body.
  rewrite every_true_map, Hall, Hp, Hpage. reflexivity.
Qed.

Lemma load_resume_error (E : Env) (w : World) :
  panel (this w) = Some CreatedPanel ->
  forallb (pathExists E) (scripts (options (this w))) = false ->
  load_resume E w =
  with_this (set_loadPromise Fulfilled)
    (webview_set_html (errorHtml E (options (this w))) w).
Proof.
  intros Hp Hall. unfold load_resume, load_body.
  rewrite every_true_map, Hall, Hp. reflexivity.
Qed.

(** Only the server page can throw. *)
Lemma appHtml_throws_in_serve_mode (E : Env) (this0 : WebPanel) (e : Error) :
  appHtml E this0 = Abrupt e -> startHttpServer (options this0) = true.
Proof.
  unfold appHtml. destruct (startHttpServer (options this0));
    [reflexivity | discriminate].
Qed.

(** ** The invariant holds along every execution *)

Lemma count_one_existsb (q : Event -> bool) (t : list Event) :
  count q t = 1 -> existsb q t = true.
Proof.
  unfold count. induction t as [|e t IH]; simpl; [discriminate|].
  destruct (q e); simpl; auto.
Qed.

Lemma inv_load_resume (E : Env) p t o u w :
  inv E p t o u w -> loadPromise (this w) = Pending ->
  inv E p t o u (load_resume E w).
Proof.
  intros [Ho Hi Hp Ht Hpend Hrejd Hun Hful Hnone Hsome Hrev Hpath] Hlp.
  destruct (Hpend Hlp) as (Hpanel & Hsubs & Hh0 & Hr0).
  pose proof (Hsome Hpanel) as Hl0.
  unfold count in *.
  destruct (forallb (pathExists E) (scripts o)) eqn:Hall.
  - destruct (appHtml E (this w)) as [page|e] eqn:Hpage.
    + rewrite (load_resume_success E w (page := page))
        by (rewrite ?Ho; assumption).
      constructor; unfold count; simpl; rewrite ?Hsubs, ?Hall, ?Hh0, ?Hr0;
        try assumption; try discriminate; try tauto; auto;
        try (intros H; exfalso; apply H; reflexivity).
    + rewrite (load_resume_throw E w (e := e)) by (rewrite ?Ho; assumption).
      pose proof (appHtml_throws_in_serve_mode _ _ Hpage) as Hflag.
      rewrite Ho in Hflag.
      constructor; unfold count; simpl; try assumption; try discriminate; auto;
        try (intros e0 _; repeat split; assumption);
        try (intros _; apply Hun; rewrite Hlp; discriminate).
  - rewrite load_resume_error by (rewrite ?Ho; assumption).
    constructor; unfold count; simpl; rewrite ?Hsubs, ?Hall, ?Hh0, ?Hr0;
      try assumption; try discriminate; try tauto; auto;
      try (intros H; exfalso; apply H; reflexivity).
Qed.

Lemma inv_step (E : Env) p t o u w l w' oc :
  inv E p t o u w -> step E l w = Some (w', oc) -> inv E p t o u w'.
Proof.
  intros I Hstep.
  destruct l.
  3: { simpl in Hstep.
       destruct (loadPromise (this w)) eqn:Hlp; try discriminate.
       inversion Hstep; subst. exact (inv_load_resume I Hlp). }
  all: destruct I as [Ho Hi Hp Ht Hpend Hrejd Hun Hful Hnone Hsome Hrev Hpath].
  all: destruct w as [[pn lp i po tk op] [vt ti vc vi ac ht di su] reg aw tr].
  all: simpl in *; subst op i po tk.
  all: unfold show_call, show_resume, updateCwd, close,
         isVisible, isActive, postMessage, get_title, set_title_prop,
         panel_dispose, host_dispose, fire, webview_postMessage,
         panel_set_title, panel_reveal in Hstep;
       simpl in Hstep.
  all: destruct lp as [| |e].
  all: try (destruct (Hpend eq_refl) as (-> & -> & Hh0 & Hr0)).
  all: try (destruct (Hrejd e eq_refl) as (-> & -> & Hh0 & Hr0 & Hall & Hflag)).
  all: try (destruct (Hful eq_refl) as (Hh1 & Hsu);
            pose proof (count_one_existsb _ _ Hh1) as Hex;
            destruct (forallb (pathExists E) (scripts o)) eqn:Hall;
            subst su).
  all: try (destruct pn as [[]|]).
  all: try (destruct (Hnone eq_refl) as (-> & Hl1)).
  all: try (pose proof (Hsome eq_refl) as Hl0).
  all: simpl in Hstep.
  all: repeat match type of Hstep with
       | context [match ?x with _ => _ end] => destruct x eqn:?
       end; try discriminate.
  all: inversion Hstep; subst; clear Hstep.
  all: constructor; unfold count in *; simpl; intros; rewrite ?Hall, ?Hex;
       try discriminate;
       try reflexivity; try assumption; try (repeat split; assumption);
       try (repeat split; congruence);
       try (apply Hun; assumption).
Qed.

Lemma reachable_inv (E : Env) p t o u w :
  reachable E p t o u w -> inv E p t o u w.
Proof.
  apply reachable_ind.
  - apply inv_construct.
  - intros w0 l w1 oc _ Hinv Hstep. exact (inv_step _ Hinv Hstep).
Qed.

(** A cleared reference means a fulfilled load. *)
Lemma cleared_means_fulfilled (E : Env) p t o u w :
  inv E p t o u w -> panel (this w) = None ->
  loadPromise (this w) = Fulfilled.
Proof.
  intros I Hp. destruct (loadPromise (this w)) as [| |e] eqn:Hlp;
    [|reflexivity|].
  - destruct (inv_pending I Hlp) as (Hsome & _). congruence.
  - destruct (inv_rejected I Hlp) as (Hsome & _). congruence.
Qed.

(** ** What encoding can throw *)

(** Induction along [encodeURIComponent], which takes one code unit or a
    surrogate pair at a time. *)
Lemma jsstring_pair_ind (P : jsstring -> Prop) :
  P [] ->
  (forall c rest, P rest -> P (tl rest) -> P (c :: rest)) ->
  forall s, P s.
Proof.
  intros Hnil Hcons s.
  assert (H : P s /\ P (tl s)).
  { induction s as [|c rest [IH1 IH2]]; simpl; auto. }
  exact (proj1 H).
Qed.

Lemma prepend_inv (pre : jsstring) (r : Completion jsstring) (x : jsstring) :
  prepend pre r = Normal x -> exists y, r = Normal y /\ x = pre ++ y.
Proof.
  destruct r as [y|e]; simpl; intros H; [|discriminate].
  inversion H. exists y. auto.
Qed.

Lemma prepend_throw (pre : jsstring) (r : Completion jsstring) (e : Error) :
  prepend pre r = Abrupt e -> r = Abrupt e.
Proof. destruct r; simpl; intros H; [discriminate | exact H]. Qed.

Lemma encodeURIComponent_throws_URIError (s : jsstring) (e : Error) :
  encodeURIComponent s = Abrupt e -> e = URIError.
Proof.
  revert e. induction s as [|c rest IH1 IH2] using jsstring_pair_ind;
    intros e H; [discriminate|].
  cbn [encodeURIComponent] in H.
  destruct (uri_unreserved c); [exact (IH1 e (prepend_throw _ _ H))|].
  destruct (is_low_surrogate c); [congruence|].
  destruct (is_high_surrogate c).
  - destruct rest as [|d rest']; [congruence|].
    destruct (is_low_surrogate d); [|congruence].
    exact (IH2 e (prepend_throw _ _ H)).
  - exact (IH1 e (prepend_throw _ _ H)).
Qed.

Lemma map_throwing_throws (A B : Type) (f : A -> Completion B) (l : list A)
    (e : Error) :
  map_throwing f l = Abrupt e -> exists x, In x l /\ f x = Abrupt e.
Proof.
  induction l as [|x l IH]; simpl; [discriminate|].
  destruct (f x) as [y|e'] eqn:Hx.
  - destruct (map_throwing f l) as [ys|e'']; [discriminate|].
    intros H. inversion H; subst. destruct (IH eq_refl) as (x' & Hin & Hx').
    exists x'. auto.
  - intros H. inversion H; subst. exists x. auto.
Qed.

Lemma appHtml_throws_URIError (E : Env) (this0 : WebPanel) (e : Error) :
  appHtml E this0 = Abrupt e -> e = URIError.
Proof.
  unfold appHtml, generateServerReactHtml, encodedScripts.
  destruct (startHttpServer (options this0)); [|discriminate].
  destruct (map_throwing _ _) as [enc|e'] eqn:Hm; [discriminate|].
  intros H. inversion H; subst.
  destruct (map_throwing_throws _ _ Hm) as (x & _ & Hx).
  exact (encodeURIComponent_throws_URIError _ Hx).
Qed.

(** ** C1: the error page is chosen exactly when a script is missing *)




(** ** C5: the serve-mode flag chooses the generator *)

(** C5, as stated, fails when a script is missing: in serve mode
    ([startHttpServer] true) the server page can be generated, but the load
    step assigns the error page, not the server page. *)
Lemma error_page_whatever_the_flag :
  let w := construct None None sample_server_missing_options (lit "panel-6") in
  let w' := load_resume sample_env w in
  startHttpServer sample_server_missing_options = true /\
  html (host w') = errorHtml sample_env sample_server_missing_options /\
  exists page,
    generateServerReactHtml sample_env (this w) = Normal page /\
    html (host w') <> page.
Proof.
  intros w w'. split; [reflexivity|]. split; [vm_compute; reflexivity|].
  destruct (generateServerReactHtml sample_env (this w)) as [page|e] eqn:Hgen.
  - exists page. split; [reflexivity|].
    vm_compute in Hgen. inversion Hgen. subst page.
    vm_compute. discriminate.
  - exfalso. vm_compute in Hgen. discriminate.
Qed.

(** C5, amended.  When every declared script exists, the load step chooses
    between exactly two HTML generators by [options.startHttpServer]: with
    the flag false the local-resource page is assigned, once; with the flag
    true the server (loopback iframe) page is assigned, once, unless
    generating it throws, and then nothing is assigned and the load is
    rejected.  When a script is missing the error page is assigned, once,
    whatever the flag. *)
Theorem load_chooses_generator_by_serve_flag (E : Env) p t o u w :
  reachable E p t o u w ->
  loadPromise (this w) = Pending ->
  let w' := load_resume E w in
  (forallb (pathExists E) (scripts o) = true ->
   startHttpServer o = false ->
   html (host w') = generateLocalReactHtml E (this w) /\
   In (SetHtml (generateLocalReactHtml E (this w))) (trace w') /\
   count is_SetHtml (trace w') = 1) /\
  (forallb (pathExists E) (scripts o) = true ->
   startHttpServer o = true ->
   forall page, generateServerReactHtml E (this w) = Normal page ->
   html (host w') = page /\
   In (SetHtml page) (trace w') /\
   count is_SetHtml (trace w') = 1) /\
  (forallb (pathExists E) (scripts o) = true ->
   startHttpServer o = true ->
   forall e, generateServerReactHtml E (this w) = Abrupt e ->
   loadPromise (this w') = Rejected e /\
   html (host w') = [] /\
   count is_SetHtml (trace w') = 0) /\
  (forallb (pathExists E) (scripts o) = false ->
   html (host w') = errorHtml E o /\
   In (SetHtml (errorHtml E o)) (trace w') /\
   count is_SetHtml (trace w') = 1).
Proof.
  intros Hreach Hpend w'.
  pose proof (reachable_inv Hreach) as I.
  destruct (inv_pending I Hpend) as (Hpanel & _ & Hcount & _).
  pose proof (inv_options I) as Ho.
  assert (Hempty : html (host w) = []).
  { apply (inv_unassigned I). rewrite Hpend. discriminate. }
  assert (Hsucc : forall page,
             forallb (pathExists E) (scripts o) = true ->
             appHtml E (this w) = Normal page ->
             html (host w') = page /\ In (SetHtml page) (trace w') /\
             count is_SetHtml (trace w') = 1).
  { intros page Hall Hpage. subst w'.
    rewrite (load_resume_success E w (page := page))
      by (rewrite ?Ho; assumption).
    unfold count in *. simpl. rewrite Hcount. auto. }
  split; [|split; [|split]].
  - intros Hall Hflag. apply Hsucc; [exact Hall|].
    unfold appHtml. rewrite Ho, Hflag. reflexivity.
  - intros Hall Hflag page Hpage. apply Hsucc; [exact Hall|].
    unfold appHtml. rewrite Ho, Hflag. exact Hpage.
  - intros Hall Hflag e Hpage. subst w'.
    rewrite (load_resume_throw E w (e := e));
      [| exact Hpanel | rewrite Ho; exact Hall
       | unfold appHtml; rewrite Ho, Hflag; exact Hpage].
    simpl. auto.
  - intros Hall. subst w'.
    rewrite load_resume_error by (rewrite ?Ho; assumption).
    unfold count in *. simpl. rewrite Ho, Hcount. auto.
Qed.

Lemma load_chooses_generator_by_serve_flag_witness :
  let w := construct (Some 8080%Z) (Some (lit "tok")) sample_server_options
             (lit "panel-2") in
  reachable sample_env (Some 8080%Z) (Some (lit "tok")) sample_server_options
    (lit "panel-2") w /\
  loadPromise (this w) = Pending /\
  forallb (pathExists sample_env) (scripts sample_server_options) = true /\
  startHttpServer sample_server_options = true /\
  generateServerReactHtml sample_env (this w)
  = Normal (html (host (load_resume sample_env w))).
Proof.
  intros w.
  assert (Hr : reachable sample_env (Some 8080%Z) (Some (lit "tok"))
                 sample_server_options (lit "panel-2") w)
    by apply reachable_construct.
  split; [exact Hr|]. split; [reflexivity|].
  split; [reflexivity|]. split; [reflexivity|].
  destruct (generateServerReactHtml sample_env (this w)) as [page|e] eqn:Hgen.
  - destruct (load_chooses_generator_by_serve_flag Hr eq_refl)
      as (_ & Hserve & _).
    destruct (Hserve eq_refl eq_refl page Hgen) as (Hhtml & _).
    rewrite Hhtml. reflexivity.
  - exfalso. vm_compute in Hgen. discriminate.
Defined.

(** ** C2: [show] reveals only after the load step *)

(** C2.  In every execution, every [reveal] call on the host panel comes
    after the HTML assignment of the load step; while [loadPromise] is
    pending no [reveal] has been made, calling [show] only suspends, and the
    suspended [show] cannot continue.  Once the load is fulfilled and the
    panel is still held, the continuation does reveal it; after a rejected
    load no [reveal] has been made and the continuation ends with the
    exception of the load. *)
Theorem show_reveals_only_after_load (E : Env) p t o u w :
  reachable E p t o u w ->
  reveal_after_html (trace w) = true /\
  (forall pf w' oc,
      step E (CallShow pf) w = Some (w', oc) -> trace w' = trace w) /\
  (loadPromise (this w) = Pending ->
   count is_Reveal (trace w) = 0 /\ step E ResumeShow w = None) /\
  (forall pf rest,
      loadPromise (this w) = Fulfilled ->
      panel (this w) = Some CreatedPanel ->
      awaiting w = pf :: rest ->
      step E ResumeShow w =
      Some (emit (Reveal (panel_viewColumn (host w)) pf) (with_awaiting rest w),
            Returned VUndefined)) /\
  (forall e pf rest,
      loadPromise (this w) = Rejected e ->
      awaiting w = pf :: rest ->
      count is_Reveal (trace w) = 0 /\
      step E ResumeShow w = Some (with_awaiting rest w, Raised e)).
Proof.
  intros Hreach. pose proof (reachable_inv Hreach) as I.
  split; [exact (inv_reveal I)|]. split; [|split; [|split]].
  - intros pf w' oc Hstep. simpl in Hstep. inversion Hstep. reflexivity.
  - intros Hpend. destruct (inv_pending I Hpend) as (_ & _ & _ & Hr).
    split; [exact Hr|]. simpl. destruct (awaiting w); [reflexivity|].
    unfold show_resume. simpl. rewrite Hpend. reflexivity.
  - intros pf rest Hful Hpanel Haw. simpl. rewrite Haw.
    unfold show_resume. simpl. rewrite Hful, Hpanel. reflexivity.
  - intros e pf rest Hrej Haw.
    destruct (inv_rejected I Hrej) as (_ & _ & _ & Hr & _).
    split; [exact Hr|]. simpl. rewrite Haw.
    unfold show_resume. simpl. rewrite Hrej. reflexivity.
Qed.

Lemma show_reveals_only_after_load_witness :
  reachable sample_env None None sample_options (lit "panel-3")
    (construct None None sample_options (lit "panel-3")) /\
  step sample_env ResumeShow
    (show_call true (construct None None sample_options (lit "panel-3"))) = None.
Proof.
  split; [apply reachable_construct|].
  assert (Hr : reachable sample_env None None sample_options (lit "panel-3")
                 (show_call true (construct None None sample_options (lit "panel-3")))).
  { eapply reachable_step; [apply reachable_construct|].
    instantiate (1 := Returned VUndefined). instantiate (1 := CallShow true).
    reflexivity. }
  destruct (show_reveals_only_after_load Hr) as (_ & _ & Hpend & _).
  apply Hpend. reflexivity.
Defined.

(** ** C3: after disposal every member is a no-op *)

Lemma updateCwd_returns (c : jsstring) (w : World) :
  updateCwd c w = (w, Returned VUndefined).
Proof.
  unfold updateCwd.
  destruct (startHttpServer (options (this w)) && truthy_port (port (this w)));
    reflexivity.
Qed.

(** C3.  In every reachable state whose panel reference has been cleared,
    each public member ([show] in both halves, [close], [postMessage],
    [updateCwd], the [title] getter and setter, [isVisible], [isActive])
    returns without an exception and leaves the object, the host panel, the
    registry and the trace as they were; the members can always be called
    and a waiting [show] always completes; [isVisible] and [isActive]
    return [false] and the [title] getter returns the empty string. *)
Theorem members_are_noops_after_disposal (E : Env) p t o u w :
  reachable E p t o u w ->
  panel (this w) = None ->
  (forall l w' oc,
      public_member l = true -> step E l w = Some (w', oc) ->
      (exists v, oc = Returned v) /\ this w' = this w /\ host w' = host w /\
      disposableRegistry w' = disposableRegistry w /\ trace w' = trace w) /\
  (forall l, public_member l = true -> l <> ResumeShow -> step E l w <> None) /\
  (awaiting w <> [] -> step E ResumeShow w <> None) /\
  (awaiting w = [] ->
   forall pf, run E [CallShow pf; ResumeShow] w
              = Some (w, [Returned VUndefined; Returned VUndefined])) /\
  isVisible w = (w, Returned (VBool false)) /\
  isActive w = (w, Returned (VBool false)) /\
  get_title w = (w, Returned (VString [])).
Proof.
  intros Hreach Hnone. pose proof (reachable_inv Hreach) as I.
  pose proof (cleared_means_fulfilled I Hnone) as Hful.
  destruct w as [[pn lp i po tk op] hp reg aw tr]. simpl in *. subst pn lp.
  split; [|split; [|split; [|split; [|repeat split]]]].
  - intros l w' oc Hpub Hstep.
    destruct l; try discriminate; simpl in Hstep;
      rewrite ?updateCwd_returns in Hstep;
      try (destruct aw; [discriminate|]);
      inversion Hstep; subst; simpl; eauto 6.
  - intros l Hpub Hl. destruct l; simpl; try discriminate; congruence.
  - intros Haw. simpl. destruct aw; [congruence|]. discriminate.
  - intros -> pf. reflexivity.
Qed.

Lemma members_are_noops_after_disposal_witness :
  let w := fst (close (load_resume sample_env
                         (construct None None sample_options (lit "panel-3")))) in
  reachable sample_env None None sample_options (lit "panel-3") w /\
  panel (this w) = None /\
  isVisible w = (w, Returned (VBool false)).
Proof.
  intros w.
  assert (Hr : reachable sample_env None None sample_options (lit "panel-3") w).
  { exists [ResumeLoad; CallClose], [Returned VUndefined; Returned VUndefined].
    vm_compute. reflexivity. }
  split; [exact Hr|]. split; [vm_compute; reflexivity|].
  destruct (members_are_noops_after_disposal Hr) as (_ & _ & _ & _ & Hv & _);
    [vm_compute; reflexivity | exact Hv].
Defined.

(** ** Host events and the object's fields *)

Lemma fire_list_frame (ev : HostEvent) (l : list Handler) (w : World) :
  host (fire_list ev l w) = host w /\
  disposableRegistry (fire_list ev l w) = disposableRegistry w /\
  awaiting (fire_list ev l w) = awaiting w /\
  loadPromise (this (fire_list ev l w)) = loadPromise (this w) /\
  options (this (fire_list ev l w)) = options (this w) /\
  id (this (fire_list ev l w)) = id (this w) /\
  port (this (fire_list ev l w)) = port (this w) /\
  token (this (fire_list ev l w)) = token (this w) /\
  (panel (this w) = None -> panel (this (fire_list ev l w)) = None) /\
  count is_SetHtml (trace (fire_list ev l w)) = count is_SetHtml (trace w) /\
  exists pre, trace (fire_list ev l w) = (pre ++ trace w)%list.
Proof.
  revert w. induction l as [|h l IH]; intros w.
  - simpl. repeat split; auto. exists []. reflexivity.
  - unfold fire_list in *. simpl.
    destruct (IH (call_handler ev h w))
      as (H1 & H2 & H3 & H4 & H5 & H6 & H7 & H8 & H9 & H10 & pre & H11).
    rewrite H1, H2, H3, H4, H5, H6, H7, H8, H10, H11.
    destruct ev, h; simpl; repeat split; auto;
      try (intros Hn; apply H9; simpl; auto);
      try (exists pre; reflexivity);
      try (eexists (pre ++ [_])%list; rewrite <- app_assoc; reflexivity).
Qed.

Lemma fire_frame (ev : HostEvent) (w : World) :
  host (fire ev w) = host w /\
  disposableRegistry (fire ev w) = disposableRegistry w /\
  awaiting (fire ev w) = awaiting w /\
  loadPromise (this (fire ev w)) = loadPromise (this w) /\
  options (this (fire ev w)) = options (this w) /\
  id (this (fire ev w)) = id (this w) /\
  port (this (fire ev w)) = port (this w) /\
  token (this (fire ev w)) = token (this w) /\
  (panel (this w) = None -> panel (this (fire ev w)) = None) /\
  count is_SetHtml (trace (fire ev w)) = count is_SetHtml (trace w) /\
  exists pre, trace (fire ev w) = (pre ++ trace w)%list.
Proof. exact (fire_list_frame ev (subscriptions (host w)) w). Qed.

Lemma load_resume_fields (E : Env) (w : World) :
  options (this (load_resume E w)) = options (this w) /\
  id (this (load_resume E w)) = id (this w) /\
  port (this (load_resume E w)) = port (this w) /\
  token (this (load_resume E w)) = token (this w).
Proof.
  unfold load_resume, load_body.
  destruct (forallb _ _); destruct (panel (this w));
    try destruct (appHtml E (this w)); simpl; repeat split.
Qed.

(** No step other than the continuation of [load] assigns [loadPromise],
    and no step at all changes the constructor's arguments. *)
Lemma step_fields (E : Env) (l : Label) (w w' : World) (oc : Outcome) :
  step E l w = Some (w', oc) ->
  options (this w') = options (this w) /\ id (this w') = id (this w) /\
  port (this w') = port (this w) /\ token (this w') = token (this w) /\
  (l <> ResumeLoad -> loadPromise (this w') = loadPromise (this w)).
Proof.
  intros Hstep. destruct l; simpl in Hstep.
  3: { destruct (loadPromise (this w)); try discriminate.
       inversion Hstep; subst.
       destruct (load_resume_fields E w) as (H1 & H2 & H3 & H4).
       repeat split; auto. congruence. }
  all: unfold show_call, show_resume, close,
         isVisible, isActive, postMessage, get_title, set_title_prop,
         panel_dispose, host_dispose, webview_postMessage,
         panel_set_title, panel_reveal, webview_set_html, subscribe in Hstep;
       rewrite ?updateCwd_returns in Hstep.
  all: repeat match type of Hstep with
       | context [match ?x with _ => _ end] => destruct x eqn:?
       end; try discriminate.
  all: inversion Hstep; subst; clear Hstep; simpl.
  all: try (repeat split; congruence).
  all: match goal with
       | |- context [fire ?ev ?w0] =>
           destruct (fire_frame ev w0)
             as (_ & _ & _ & F4 & F5 & F6 & F7 & F8 & _);
           rewrite F4, F5, F6, F7, F8; simpl; repeat split; congruence
       end.
Qed.

Lemma step_keeps_html (E : Env) (l : Label) (w w' : World) (oc : Outcome) :
  step E l w = Some (w', oc) -> l <> ResumeLoad ->
  html (host w') = html (host w).
Proof.
  intros Hstep Hl. destruct l; simpl in Hstep; try congruence.
  all: unfold show_call, show_resume, close,
         isVisible, isActive, postMessage, get_title, set_title_prop,
         panel_dispose, host_dispose, webview_postMessage,
         panel_set_title, panel_reveal in Hstep;
       rewrite ?updateCwd_returns in Hstep.
  all: repeat match type of Hstep with
       | context [match ?x with _ => _ end] => destruct x eqn:?
       end; try discriminate.
  all: inversion Hstep; subst; clear Hstep; simpl; try reflexivity.
  all: match goal with
       | |- context [fire ?ev ?w0] =>
           destruct (fire_frame ev w0) as (F1 & _); rewrite F1; reflexivity
       end.
Qed.

(** ** C4: teardown when the host reports disposal *)

(** C4, as stated, fails on the missing-scripts branch: a script is missing,
    the load step assigns the error page and registers nothing, the host
    then reports disposal, and afterwards the panel reference is still held
    and the listener has not been disposed. *)
Lemma no_teardown_on_error_branch :
  exists w os,
    run sample_env [ResumeLoad; HostDisposes]
        (construct None None sample_missing_options (lit "panel-1")) = Some (w, os) /\
    disposed (host w) = true /\
    panel (this w) = Some CreatedPanel /\
    count is_ListenerDispose (trace w) = 0.
Proof.
  eexists. eexists. split; [vm_compute; reflexivity|].
  vm_compute. auto.
Qed.

(** C4, amended.  The listener is disposed at most once in an execution and
    the panel reference is cleared exactly when that has happened; a cleared
    reference is never set again.  When the host reports disposal after the
    load step has completed on its success branch, the closure registered by
    that branch clears the reference and disposes the listener, whether the
    report comes from the host alone or from [close].  On the missing-scripts
    branch nothing is registered: the report leaves the reference and the
    listener untouched. *)
Theorem host_disposal_tears_down_once_after_successful_load
    (E : Env) p t o u w :
  reachable E p t o u w ->
  count is_ListenerDispose (trace w) <= 1 /\
  (panel (this w) = None <-> count is_ListenerDispose (trace w) = 1) /\
  (panel (this w) = None ->
   forall l w' oc, step E l w = Some (w', oc) ->
                   panel (this w') = None /\
                   count is_ListenerDispose (trace w') = 1) /\
  (loadPromise (this w) = Fulfilled -> disposed (host w) = false ->
   forallb (pathExists E) (scripts o) = true ->
   (exists w', step E HostDisposes w = Some (w', Returned VUndefined) /\
               panel (this w') = None /\ disposed (host w') = true /\
               trace w' = ListenerDispose :: trace w) /\
   panel (this (fst (close w))) = None /\
   trace (fst (close w)) = ListenerDispose :: PanelDispose :: trace w) /\
  (loadPromise (this w) = Fulfilled -> disposed (host w) = false ->
   forallb (pathExists E) (scripts o) = false ->
   exists w', step E HostDisposes w = Some (w', Returned VUndefined) /\
              panel (this w') = panel (this w) /\ trace w' = trace w).
Proof.
  intros Hreach. pose proof (reachable_inv Hreach) as I.
  assert (Hcases : panel (this w) = None \/ panel (this w) = Some CreatedPanel).
  { destruct (panel (this w)) as [[]|]; auto. }
  split; [|split; [|split; [|split]]].
  - destruct Hcases as [Hn | Hs].
    + destruct (inv_panel_none I Hn) as (_ & ->). lia.
    + rewrite (inv_panel_some I Hs). lia.
  - split.
    + intros Hn. exact (proj2 (inv_panel_none I Hn)).
    + intros Hc. destruct Hcases as [Hn | Hs]; [exact Hn|].
      rewrite (inv_panel_some I Hs) in Hc. discriminate.
  - intros Hn l w' oc Hstep.
    pose proof (reachable_inv (reachable_step _ Hreach Hstep)) as I'.
    assert (Hn' : panel (this w') = None).
    { destruct (panel (this w')) as [[]|] eqn:Hp'; [|reflexivity].
      pose proof (inv_panel_some I' Hp') as Hc'.
      destruct (inv_panel_none I Hn) as (Hd & Hc).
      pose proof (cleared_means_fulfilled I Hn) as Hful.
      exfalso. clear I I' Hreach.
      destruct w as [[pn lp i po tk op] [vt ti vc vi ac ht di su] reg aw tr].
      unfold count in *. simpl in *. subst pn lp di.
      destruct l; simpl in Hstep;
        rewrite ?updateCwd_returns in Hstep;
        try (destruct aw; [discriminate|]);
        try discriminate; inversion Hstep; subst; simpl in *;
        try discriminate. }
    split; [exact Hn' | exact (proj2 (inv_panel_none I' Hn'))].
  - intros Hful Hdis Hall.
    destruct (inv_fulfilled I Hful) as (_ & Hsubs). rewrite Hall in Hsubs.
    assert (Hs : panel (this w) = Some CreatedPanel).
    { destruct Hcases as [Hn | Hs]; [|exact Hs].
      destruct (inv_panel_none I Hn) as (Hd & _). congruence. }
    destruct w as [[pn lp i po tk op] [vt ti vc vi ac ht di su] reg aw tr].
    simpl in *. subst pn lp di su.
    split; [eexists; split; [reflexivity|]|]; simpl; auto.
  - intros Hful Hdis Hall.
    destruct (inv_fulfilled I Hful) as (_ & Hsubs). rewrite Hall in Hsubs.
    destruct w as [[pn lp i po tk op] [vt ti vc vi ac ht di su] reg aw tr].
    simpl in *. subst lp di su.
    eexists; split; [reflexivity|]. simpl; auto.
Qed.

Lemma host_disposal_tears_down_once_after_successful_load_witness :
  let w := load_resume sample_env
             (construct None None sample_options (lit "panel-3")) in
  reachable sample_env None None sample_options (lit "panel-3") w /\
  loadPromise (this w) = Fulfilled /\ disposed (host w) = false /\
  forallb (pathExists sample_env) (scripts sample_options) = true /\
  panel (this (fst (close w))) = None.
Proof.
  intros w.
  assert (Hr : reachable sample_env None None sample_options (lit "panel-3") w).
  { exists [ResumeLoad], [Returned VUndefined]. vm_compute. reflexivity. }
  split; [exact Hr|]. split; [vm_compute; reflexivity|].
  split; [vm_compute; reflexivity|]. split; [vm_compute; reflexivity|].
  destruct (host_disposal_tears_down_once_after_successful_load Hr)
    as (_ & _ & _ & Hgood & _).
  apply Hgood; vm_compute; reflexivity.
Defined.

(** ** C6: [close] and [postMessage] do not wait for the load *)

(** C6.  In every state, whatever the state of [loadPromise] (pending
    included), [close] and [postMessage] are single synchronous steps that
    can always be taken and never touch [loadPromise]: with the panel
    reference present [close] calls [dispose] on the host panel at once and
    [postMessage] posts the message to the webview at once; with the
    reference absent both change nothing. *)
Theorem close_and_postMessage_do_not_await_load
    (E : Env) (w : World) (m : WebPanelMessage) :
  step E CallClose w = Some (close w) /\
  step E (CallPostMessage m) w = Some (postMessage m w) /\
  snd (close w) = Returned VUndefined /\
  snd (postMessage m w) = Returned VUndefined /\
  loadPromise (this (fst (close w))) = loadPromise (this w) /\
  loadPromise (this (fst (postMessage m w))) = loadPromise (this w) /\
  (panel (this w) = Some CreatedPanel ->
   (exists pre, trace (fst (close w)) = (pre ++ PanelDispose :: trace w)%list) /\
   disposed (host (fst (close w))) = true /\
   fst (postMessage m w) = emit (PostMessage m) w) /\
  (panel (this w) = None ->
   fst (close w) = w /\ fst (postMessage m w) = w).
Proof.
  split; [reflexivity|]. split; [reflexivity|].
  unfold close, postMessage, panel_dispose, host_dispose, webview_postMessage.
  destruct (panel (this w)) as [[]|] eqn:Hp; simpl.
  - destruct (disposed (host w)) eqn:Hd; simpl.
    + repeat split; try discriminate; auto. exists []. reflexivity.
    + destruct (fire_frame DidDispose
                  (with_host set_disposed (emit PanelDispose w)))
        as (F1 & _ & _ & F4 & _ & _ & _ & _ & _ & _ & pre & F11).
      rewrite F1, F4, F11. simpl.
      repeat split; try discriminate; auto. exists pre. reflexivity.
  - repeat split; try discriminate; auto.
Qed.

Lemma close_and_postMessage_do_not_await_load_witness :
  let w := construct None None sample_options (lit "panel-3") in
  loadPromise (this w) = Pending /\
  panel (this w) = Some CreatedPanel /\
  disposed (host (fst (close w))) = true /\
  fst (postMessage {| msg_type := (lit "ping"); msg_payload := (lit "1") |} w)
  = emit (PostMessage {| msg_type := (lit "ping"); msg_payload := (lit "1") |}) w.
Proof.
  intros w. split; [reflexivity|]. split; [reflexivity|].
  destruct (close_and_postMessage_do_not_await_load sample_env w
              {| msg_type := (lit "ping"); msg_payload := (lit "1") |})
    as (_ & _ & _ & _ & _ & _ & Hsome & _).
  destruct (Hsome eq_refl) as (_ & Hd & Hm). split; [exact Hd | exact Hm].
Defined.

(** ** C7: the load runs once *)

Lemma html_assignments_by_state (E : Env) p t o u w :
  inv E p t o u w ->
  count is_SetHtml (trace w)
  = match loadPromise (this w) with Fulfilled => 1 | _ => 0 end.
Proof.
  intros I. destruct (loadPromise (this w)) as [| |e] eqn:Hlp.
  - destruct (inv_pending I Hlp) as (_ & _ & Hc & _). exact Hc.
  - exact (proj1 (inv_fulfilled I Hlp)).
  - destruct (inv_rejected I Hlp) as (_ & _ & Hc & _). exact Hc.
Qed.

(** C7.  In every execution the existence checks of the load step are made
    once, one per script in order, and the HTML is assigned at most once:
    never while [loadPromise] is pending or after it was rejected, and
    exactly once when it has been fulfilled.  No step other than the
    continuation of the load itself assigns [loadPromise], so every [show]
    waits on the one promise made by the constructor; once the promise has
    settled, fulfilled or rejected, the load cannot continue again and no
    step changes the promise or assigns HTML. *)
Theorem load_runs_once (E : Env) p t o u w :
  reachable E p t o u w ->
  filter is_PathExists (trace w) = map PathExists (rev (scripts o)) /\
  count is_SetHtml (trace w)
  = match loadPromise (this w) with Fulfilled => 1 | _ => 0 end /\
  (forall l w' oc,
      step E l w = Some (w', oc) -> l <> ResumeLoad ->
      loadPromise (this w') = loadPromise (this w)) /\
  (loadPromise (this w) <> Pending ->
   step E ResumeLoad w = None /\
   forall l w' oc,
     step E l w = Some (w', oc) ->
     loadPromise (this w') = loadPromise (this w) /\
     count is_SetHtml (trace w') = count is_SetHtml (trace w) /\
     html (host w') = html (host w)).
Proof.
  intros Hreach. pose proof (reachable_inv Hreach) as I.
  split; [exact (inv_path I)|]. split; [|split].
  - exact (html_assignments_by_state I).
  - intros l w' oc Hstep Hl.
    destruct (step_fields _ _ _ Hstep) as (_ & _ & _ & _ & H). exact (H Hl).
  - intros Hsettled.
    assert (Hnone : step E ResumeLoad w = None).
    { simpl. destruct (loadPromise (this w)); [congruence | reflexivity..]. }
    split; [exact Hnone|].
    intros l w' oc Hstep.
    assert (Hl : l <> ResumeLoad) by (intros ->; congruence).
    destruct (step_fields _ _ _ Hstep) as (_ & _ & _ & _ & H).
    split; [exact (H Hl)|].
    pose proof (reachable_inv (reachable_step _ Hreach Hstep)) as I'.
    rewrite (html_assignments_by_state I), (html_assignments_by_state I').
    rewrite (H Hl). split; [reflexivity|].
    eapply step_keeps_html; eassumption.
Qed.

Lemma load_runs_once_witness :
  let w := load_resume sample_env
             (construct None None sample_options (lit "panel-3")) in
  reachable sample_env None None sample_options (lit "panel-3") w /\
  loadPromise (this w) <> Pending /\
  step sample_env ResumeLoad w = None.
Proof.
  intros w.
  assert (Hr : reachable sample_env None None sample_options (lit "panel-3") w).
  { exists [ResumeLoad], [Returned VUndefined]. vm_compute. reflexivity. }
  assert (Hs : loadPromise (this w) <> Pending) by (vm_compute; discriminate).
  split; [exact Hr|]. split; [exact Hs|].
  destruct (load_runs_once Hr) as (_ & _ & _ & Hsettled).
  exact (proj1 (Hsettled Hs)).
Defined.

(** ** C9: [updateCwd] does nothing *)

(** C9.  For every argument and every state, [updateCwd] returns and leaves
    the whole state as it was: no field of the object changes, nothing is
    posted and the trace of outside calls is the same. *)
Theorem updateCwd_is_noop (E : Env) (c : jsstring) (w : World) :
  updateCwd c w = (w, Returned VUndefined) /\
  step E (CallUpdateCwd c) w = Some (w, Returned VUndefined) /\
  trace (fst (updateCwd c w)) = trace w /\
  this (fst (updateCwd c w)) = this w /\
  host (fst (updateCwd c w)) = host w.
Proof.
  simpl. rewrite updateCwd_returns. repeat split.
Qed.

(** ** C8: where the panel id goes *)

Lemma template_app (l1 l2 : list jsstring) :
  template (l1 ++ l2) = template l1 ++ template l2.
Proof. unfold template. apply concat_app. Qed.













(** ** C10: the view type given to the host *)

Lemma unit_eqb_eq (a b : unit16) : unit_eqb a b = true <-> a = b.
Proof.
  destruct a as [a1 a2], b as [b1 b2]. unfold unit_eqb. simpl.
  rewrite andb_true_iff, !Ascii.eqb_eq. split.
  - intros [-> ->]. reflexivity.
  - intros H. inversion H. auto.
Qed.

Lemma code_of_ascii (c : ascii) : code (of_ascii c) = N_of_ascii c.
Proof. unfold code, of_ascii. simpl. reflexivity. Qed.

Lemma replace_space_cons (c : unit16) (rest : jsstring) :
  replace (lit " ") [] (c :: rest)
  = if unit_eqb space c then rest
    else c :: replace (lit " ") [] rest.
Proof.
  cbn [replace prefixb lit].
  change (of_ascii " ") with space. rewrite andb_true_r.
  destruct (unit_eqb space c); reflexivity.
Qed.

Lemma lower_unit_space (c : unit16) :
  unit_eqb space (lower_unit c) = unit_eqb space c.
Proof.
  unfold lower_unit.
  destruct (andb (65 <=? code c)%N (code c <=? 90)%N) eqn:Hup; [|reflexivity].
  apply andb_prop in Hup. destruct Hup as (H1 & H2).
  apply N.leb_le in H1. apply N.leb_le in H2.
  destruct (unit_eqb space c) eqn:Hc.
  - apply unit_eqb_eq in Hc. subst c. vm_compute in H1. exfalso. apply H1.
    reflexivity.
  - destruct (unit_eqb space (of_ascii (ascii_of_N (code c + 32)))) eqn:Hl;
      [|reflexivity].
    apply unit_eqb_eq in Hl. exfalso.
    assert (Hcode : code space
                    = code (of_ascii (ascii_of_N (code c + 32))))
      by (rewrite <- Hl; reflexivity).
    rewrite code_of_ascii, N_ascii_embedding in Hcode by lia.
    change (code space) with 32%N in Hcode. lia.
Qed.

Lemma toLowerCase_app (a b : jsstring) :
  toLowerCase (a ++ b) = toLowerCase a ++ toLowerCase b.
Proof. apply map_app. Qed.

Lemma count_space_toLowerCase (s : jsstring) :
  count_char space (toLowerCase s) = count_char space s.
Proof.
  unfold count_char, toLowerCase.
  induction s as [|c s IH]; simpl; [reflexivity|].
  rewrite lower_unit_space. destruct (unit_eqb space c); simpl; rewrite IH;
    reflexivity.
Qed.

Lemma replace_first_space_split (a b : jsstring) :
  count_char space a = 0 ->
  replace (lit " ") [] (a ++ lit " " ++ b) = a ++ b.
Proof.
  unfold count_char. induction a as [|c a IH]; intros Hc.
  - change ([] ++ lit " " ++ b) with (space :: b).
    rewrite replace_space_cons. reflexivity.
  - simpl in Hc. change ((c :: a) ++ lit " " ++ b)
      with (c :: (a ++ lit " " ++ b)).
    rewrite replace_space_cons.
    destruct (unit_eqb space c); [discriminate|].
    rewrite IH by exact Hc. reflexivity.
Qed.

Lemma replace_no_space (s : jsstring) :
  count_char space s = 0 -> replace (lit " ") [] s = s.
Proof.
  unfold count_char. induction s as [|c s IH]; intros Hc; [reflexivity|].
  simpl in Hc. rewrite replace_space_cons.
  destruct (unit_eqb space c); [discriminate|].
  rewrite IH by exact Hc. reflexivity.
Qed.

Lemma count_space_replace (s : jsstring) :
  count_char space (replace (lit " ") [] s) = count_char space s - 1.
Proof.
  unfold count_char. induction s as [|c s IH]; [reflexivity|].
  rewrite replace_space_cons. simpl.
  destruct (unit_eqb space c) eqn:Heq; simpl.
  - lia.
  - rewrite Heq. simpl. exact IH.
Qed.

(** C10.  The view type the constructor passes to the host (and that the
    created panel carries) is the title in lower case with the first space
    removed and nothing else: the text before the first space and the whole
    text after it are kept, a title without a space is only lower-cased,
    and a title with two or more spaces yields a view type that has one
    space fewer and so still contains a space. *)
Theorem viewType_removes_only_first_space
    (p : option Z) (t : option jsstring) (o : IWebPanelOptions) (u : jsstring) :
  let viewType := replace (lit " ") [] (toLowerCase (title o)) in
  panel_viewType (host (construct p t o u)) = viewType /\
  (exists pm, last (trace (construct p t o u)) PanelDispose
              = CreateWebviewPanel viewType (title o) (viewColumn o) true
                  true true [rootPath o] pm) /\
  (forall a b, count_char space a = 0 -> title o = a ++ (lit " ") ++ b ->
               viewType = toLowerCase a ++ toLowerCase b) /\
  (count_char space (title o) = 0 -> viewType = toLowerCase (title o)) /\
  (2 <= count_char space (title o) ->
   count_char space viewType = count_char space (title o) - 1 /\
   1 <= count_char space viewType).
Proof.
  intros viewType. subst viewType.
  split; [|split; [|split; [|split]]].
  - unfold construct, load_call. simpl. rewrite fold_emit_PathExists.
    reflexivity.
  - unfold construct, load_call. simpl. rewrite fold_emit_PathExists.
    cbn [trace]. eexists. rewrite last_last. reflexivity.
  - intros a b Ha Htitle. rewrite Htitle, !toLowerCase_app.
    change (toLowerCase (lit " ")) with (lit " ").
    apply replace_first_space_split.
    rewrite count_space_toLowerCase. exact Ha.
  - intros Hc. apply replace_no_space.
    rewrite count_space_toLowerCase. exact Hc.
  - intros Hc. rewrite count_space_replace, count_space_toLowerCase. lia.
Qed.

Lemma viewType_removes_only_first_space_witness :
  2 <= count_char space (title sample_options) /\
  panel_viewType (host (construct None None sample_options (lit "panel-3")))
  = (lit "dataviewer - my frame") /\
  1 <= count_char space
         (replace (lit " ") [] (toLowerCase (title sample_options))).
Proof.
  assert (Hc : 2 <= count_char space (title sample_options))
    by (vm_compute; lia).
  split; [exact Hc|].
  destruct (viewType_removes_only_first_space None None sample_options (lit "panel-3"))
    as (Hv & _ & _ & _ & Hmany).
  split; [rewrite Hv; reflexivity | exact (proj2 (Hmany Hc))].
Defined.

(** ** Beyond the claims: the listener and the registry *)

(** The outside calls of the constructor: the panel is created, then one
    existence check per script is started. *)
Lemma construct_trace_eq p t o u :
  trace (construct p t o u)
  = (rev (map PathExists (scripts o)) ++
     [CreateWebviewPanel (replace (lit " ") [] (toLowerCase (title o)))
        (title o) (viewColumn o) true true true [rootPath o]
        (if truthy_port p
         then match p with Some n => Some (RemappedPort, n) | None => None end
         else None)])%list.
Proof.
  unfold construct, load_call. simpl. rewrite fold_emit_PathExists.
  reflexivity.
Qed.

Lemma count_construct (q : Event -> bool) p t o u :
  (forall s, q (PathExists s) = false) ->
  (forall a b c d e f g h, q (CreateWebviewPanel a b c d e f g h) = false) ->
  count q (trace (construct p t o u)) = 0.
Proof.
  intros Hq Hc. unfold count.
  rewrite construct_trace_eq, filter_app, <- map_rev.
  rewrite filter_PathExists_other by exact Hq. simpl. rewrite Hc. reflexivity.
Qed.

Lemma inv_listener_construct (E : Env) p t o u :
  inv_listener E o (construct p t o u).
Proof.
  assert (Hcount : count is_listener_call (trace (construct p t o u)) = 0)
    by (apply count_construct; reflexivity).
  constructor; auto.
  unfold construct, load_call. simpl. rewrite fold_emit_PathExists.
  reflexivity.
Qed.

Lemma inv_listener_load_resume (E : Env) p t o u w :
  inv E p t o u w -> inv_listener E o w ->
  loadPromise (this w) = Pending -> inv_listener E o (load_resume E w).
Proof.
  intros I [Hreg Hun Hlm] Hlp.
  destruct (inv_pending I Hlp) as (Hpanel & Hsubs & _ & _).
  pose proof (inv_options I) as Ho.
  assert (H0 : count is_listener_call (trace w) = 0)
    by (apply Hun; rewrite Hlp; discriminate).
  unfold count in *.
  destruct (forallb (pathExists E) (scripts o)) eqn:Hall.
  - destruct (appHtml E (this w)) as [page|e] eqn:Hpage.
    + rewrite (load_resume_success E w (page := page))
        by (rewrite ?Ho; assumption).
      constructor; unfold count; simpl; rewrite ?Hreg; try reflexivity;
        try discriminate;
        try (intros H; exfalso; apply H; reflexivity);
        try (intros; congruence).
    + rewrite (load_resume_throw E w (e := e)) by (rewrite ?Ho; assumption).
      constructor; unfold count; simpl; auto.
  - rewrite load_resume_error by (rewrite ?Ho; assumption).
    constructor; unfold count; simpl; auto.
Qed.

Lemma inv_listener_step (E : Env) p t o u w l w' oc :
  inv E p t o u w -> inv_listener E o w ->
  step E l w = Some (w', oc) -> inv_listener E o w'.
Proof.
  intros I L Hstep.
  destruct l.
  3: { simpl in Hstep.
       destruct (loadPromise (this w)) eqn:Hlp; try discriminate.
       inversion Hstep; subst. exact (inv_listener_load_resume I L Hlp). }
  all: destruct I as [Ho Hi Hp Ht Hpend Hrejd Hun Hful Hnone Hsome Hrev Hpath].
  all: destruct L as [Hreg Hlu Hlm].
  all: destruct w as [[pn lp i po tk op] [vt ti vc vi ac ht di su] reg aw tr].
  all: simpl in *; subst op i po tk reg.
  all: unfold show_call, show_resume, updateCwd, close,
         isVisible, isActive, postMessage, get_title, set_title_prop,
         panel_dispose, host_dispose, fire, webview_postMessage,
         panel_set_title, panel_reveal in Hstep;
       simpl in Hstep.
  all: destruct lp as [| |e].
  all: try (destruct (Hpend eq_refl) as (-> & -> & Hh0 & Hr0)).
  all: try (destruct (Hrejd e eq_refl) as (-> & -> & Hh0 & Hr0 & Hall & Hflag)).
  all: try (destruct (Hful eq_refl) as (Hh1 & Hsu);
            destruct (forallb (pathExists E) (scripts o)) eqn:Hall;
            subst su).
  all: try (pose proof (Hlu ltac:(discriminate)) as Hl0).
  all: try (pose proof (Hlm eq_refl) as Hm0).
  all: try (destruct pn as [[]|]).
  all: simpl in Hstep.
  all: repeat match type of Hstep with
       | context [match ?x with _ => _ end] => destruct x eqn:?
       end; try discriminate.
  all: inversion Hstep; subst; clear Hstep.
  all: constructor; unfold count in *; simpl; intros; try discriminate;
       try reflexivity; try assumption; try congruence;
       try (exfalso; congruence).
Qed.

Lemma reachable_inv_listener (E : Env) p t o u w :
  reachable E p t o u w -> inv_listener E o w.
Proof.
  intros Hreach. revert w Hreach. apply reachable_ind.
  - apply inv_listener_construct.
  - intros w0 l w1 oc Hr Hinv Hstep.
    eapply inv_listener_step; [exact (reachable_inv Hr) | exact Hinv | exact Hstep].
Qed.

(** X1.  The listener is called only after a load that found every script:
    while the load is suspended, and in every state of a panel with a
    missing script, the trace holds no call of the listener; a message the
    page posts in such a state (to a panel not yet closed) is dropped
    without any effect. *)
Theorem listener_called_only_after_successful_load (E : Env) p t o u w :
  reachable E p t o u w ->
  (0 < count is_listener_call (trace w) ->
   loadPromise (this w) = Fulfilled /\
   forallb (pathExists E) (scripts o) = true) /\
  (forall m,
      loadPromise (this w) = Pending \/
      forallb (pathExists E) (scripts o) = false ->
      disposed (host w) = false ->
      step E (HostMessage m) w = Some (w, Returned VUndefined)).
Proof.
  intros Hreach.
  pose proof (reachable_inv Hreach) as I.
  pose proof (reachable_inv_listener Hreach) as L.
  split.
  - intros Hpos.
    destruct (forallb (pathExists E) (scripts o)) eqn:Hall.
    + split; [|reflexivity].
      destruct (loadPromise (this w)) as [| |e] eqn:Hlp; [|reflexivity|].
      * rewrite (invl_unsettled L) in Hpos by (rewrite Hlp; discriminate).
        lia.
      * rewrite (invl_unsettled L) in Hpos by (rewrite Hlp; discriminate).
        lia.
    + rewrite (invl_missing L Hall) in Hpos. lia.
  - intros m Hcase Hd.
    assert (Hsubs : subscriptions (host w) = []).
    { destruct Hcase as [Hlp | Hmiss].
      - exact (proj1 (proj2 (inv_pending I Hlp))).
      - destruct (loadPromise (this w)) as [| |e] eqn:Hlp.
        + exact (proj1 (proj2 (inv_pending I Hlp))).
        + destruct (inv_fulfilled I Hlp) as (_ & Hs).
          rewrite Hmiss in Hs. exact Hs.
        + destruct (inv_rejected I Hlp) as (_ & _ & _ & _ & Hall & _).
          congruence. }
    simpl. rewrite Hd. unfold fire. rewrite Hsubs. reflexivity.
Qed.

Lemma listener_called_only_after_successful_load_witness :
  let w := load_resume sample_env
             (construct None None sample_missing_options (lit "panel-1")) in
  reachable sample_env None None sample_missing_options (lit "panel-1") w /\
  forallb (pathExists sample_env) (scripts sample_missing_options) = false /\
  disposed (host w) = false /\
  step sample_env (HostMessage {| msg_type := (lit "ping"); msg_payload := (lit "1") |}) w
  = Some (w, Returned VUndefined).
Proof.
  intros w.
  assert (Hr : reachable sample_env None None sample_missing_options
                 (lit "panel-1") w).
  { exists [ResumeLoad], [Returned VUndefined]. vm_compute. reflexivity. }
  split; [exact Hr|]. split; [vm_compute; reflexivity|].
  split; [vm_compute; reflexivity|].
  destruct (listener_called_only_after_successful_load Hr) as (_ & Hdrop).
  apply Hdrop; [right|]; vm_compute; reflexivity.
Defined.

(** After a load that found every script, on a panel that has not been
    closed: the reference is held and the three closures are registered. *)
Lemma loaded_open_panel (E : Env) p t o u w :
  reachable E p t o u w ->
  loadPromise (this w) = Fulfilled ->
  forallb (pathExists E) (scripts o) = true ->
  disposed (host w) = false ->
  panel (this w) = Some CreatedPanel /\
  subscriptions (host w) = load_closures.
Proof.
  intros Hreach Hful Hall Hd. pose proof (reachable_inv Hreach) as I.
  destruct (inv_fulfilled I Hful) as (_ & Hs). rewrite Hall in Hs.
  split; [|exact Hs].
  destruct (panel (this w)) as [[]|] eqn:Hp; [reflexivity|].
  destruct (inv_panel_none I Hp) as (Hd' & _). congruence.
Qed.

(** X2.  After a load that found every script, a message posted by the page
    of an open panel is handed to the listener once, with its type and its
    payload as they came, and nothing else changes. *)
Theorem message_is_relayed_to_listener (E : Env) p t o u w m :
  reachable E p t o u w ->
  loadPromise (this w) = Fulfilled ->
  forallb (pathExists E) (scripts o) = true ->
  disposed (host w) = false ->
  step E (HostMessage m) w
  = Some (emit (ListenerOnMessage (msg_type m) (msg_payload m)) w,
          Returned VUndefined).
Proof.
  intros Hreach Hful Hall Hd.
  destruct (loaded_open_panel Hreach Hful Hall Hd) as (_ & Hs).
  simpl. rewrite Hd. unfold fire. rewrite Hs. reflexivity.
Qed.

Lemma message_is_relayed_to_listener_witness :
  let w := load_resume sample_env
             (construct None None sample_options (lit "panel-3")) in
  reachable sample_env None None sample_options (lit "panel-3") w /\
  loadPromise (this w) = Fulfilled /\
  forallb (pathExists sample_env) (scripts sample_options) = true /\
  disposed (host w) = false /\
  step sample_env (HostMessage {| msg_type := (lit "ping"); msg_payload := (lit "1") |}) w
  = Some (emit (ListenerOnMessage (lit "ping") (lit "1")) w, Returned VUndefined).
Proof.
  intros w.
  assert (Hr : reachable sample_env None None sample_options (lit "panel-3") w).
  { exists [ResumeLoad], [Returned VUndefined]. vm_compute. reflexivity. }
  split; [exact Hr|].
  assert (H1 : loadPromise (this w) = Fulfilled) by (vm_compute; reflexivity).
  assert (H2 : forallb (pathExists sample_env) (scripts sample_options) = true)
    by (vm_compute; reflexivity).
  assert (H3 : disposed (host w) = false) by (vm_compute; reflexivity).
  split; [exact H1|]. split; [exact H2|]. split; [exact H3|].
  exact (message_is_relayed_to_listener
           {| msg_type := (lit "ping"); msg_payload := (lit "1") |} Hr H1 H2 H3).
Defined.





(** ** Beyond the claims: the title *)

(** The three ways the continuation of [load] can end. *)
Lemma load_resume_cases (E : Env) p t o u w :
  inv E p t o u w -> loadPromise (this w) = Pending ->
  (exists page,
      load_resume E w
      = with_this (set_loadPromise Fulfilled)
          (emit ListenerOnChangeViewState
             (subscribe OnDidChangeViewState
                (subscribe OnDidReceiveMessage
                   (subscribe OnDidDispose (webview_set_html page w)))))) \/
  (exists e, load_resume E w = with_this (set_loadPromise (Rejected e)) w) \/
  load_resume E w
  = with_this (set_loadPromise Fulfilled)
      (webview_set_html (errorHtml E o) w).
Proof.
  intros I Hlp. destruct (inv_pending I Hlp) as (Hpanel & _).
  pose proof (inv_options I) as Ho.
  destruct (forallb (pathExists E) (scripts o)) eqn:Hall.
  - destruct (appHtml E (this w)) as [page|e] eqn:Hpage.
    + left. exists page. apply load_resume_success; rewrite ?Ho; assumption.
    + right. left. exists e. apply load_resume_throw; rewrite ?Ho; assumption.
  - right. right. rewrite load_resume_error by (rewrite ?Ho; assumption).
    rewrite Ho. reflexivity.
Qed.

(** Case analysis of one step other than the continuation of [load], from
    a state that satisfies [inv]: the
    promise is pending, fulfilled or rejected, the registered closures are
    known, the reference is held or cleared. *)
Ltac step_cases E o Hstep :=
  match goal with
  | I : inv E _ _ o _ ?w |- _ =>
      let Hrejd := fresh "Hrejd" in
      let Hpend := fresh "Hpend" in
      let Hful := fresh "Hful" in
      let Hnone := fresh "Hnone" in
      destruct I as [? ? ? ? Hpend Hrejd _ Hful Hnone _ _ _];
      destruct w as [[pn lp i po tk op] [vt ti vc vi ac ht di su] reg aw tr];
      simpl in *; subst;
      unfold show_call, show_resume, updateCwd,
        close, isVisible, isActive, postMessage, get_title, set_title_prop,
        panel_dispose, host_dispose, fire, webview_postMessage,
        panel_set_title, panel_reveal in Hstep;
      simpl in Hstep;
      destruct lp as [| |?e];
      try (destruct (Hpend eq_refl) as (-> & -> & _ & _));
      try (destruct (Hrejd _ eq_refl) as (-> & -> & _));
      try (destruct (Hful eq_refl) as (_ & ->));
      destruct (forallb (pathExists E) (scripts o));
      try (destruct pn as [[]|]);
      try (destruct (Hnone eq_refl) as (-> & _));
      simpl in Hstep;
      repeat match type of Hstep with
        | context [match ?x with _ => _ end] => destruct x eqn:?
        end;
      try discriminate;
      inversion Hstep; subst; clear Hstep
  end.

Lemma title_follows_trace (E : Env) p t o u w :
  reachable E p t o u w ->
  panel_title (host w) = current_title (title o) (trace w).
Proof.
  intros Hreach. revert w Hreach. apply reachable_ind.
  - rewrite construct_trace_eq.
    assert (H : forall l c, current_title (title o)
                  (rev (map PathExists l) ++ c)%list
                = current_title (title o) c).
    { intros l c. rewrite <- map_rev.
      induction (rev l) as [|s r IH]; simpl; auto. }
    rewrite H. unfold construct, load_call. simpl.
    rewrite fold_emit_PathExists. reflexivity.
  - intros w l w' oc Hr Htitle Hstep.
    pose proof (reachable_inv Hr) as I.
    destruct l.
    3: { simpl in Hstep.
         destruct (loadPromise (this w)) eqn:Hlp; try discriminate.
         inversion Hstep; subst.
         destruct (load_resume_cases I Hlp) as [(page & ->) | [(e & ->) | ->]];
           simpl; exact Htitle. }
    all: simpl in Hstep; step_cases E o Hstep; simpl; auto.
Qed.

(** X5.  The title getter of a panel whose reference is held returns the
    title most recently assigned through the setter, or the title of the
    options when none was assigned; loading, showing, posting, messages and
    view-state changes never alter it.  Reading back right after an
    assignment returns the assigned title. *)
Theorem title_getter_returns_last_title_set (E : Env) p t o u w :
  reachable E p t o u w ->
  panel (this w) = Some CreatedPanel ->
  get_title w = (w, Returned (VString (current_title (title o) (trace w)))) /\
  (forall s, snd (get_title (fst (set_title_prop s w)))
             = Returned (VString s)) /\
  (forall s, trace (fst (set_title_prop s w)) = SetTitle s :: trace w).
Proof.
  intros Hreach Hp. rewrite <- (title_follows_trace Hreach).
  unfold get_title, set_title_prop, panel_set_title. rewrite Hp. simpl.
  rewrite Hp. repeat split.
Qed.

Lemma title_getter_returns_last_title_set_witness :
  let w := fst (set_title_prop (lit "Renamed")
                  (load_resume sample_env
                     (construct None None sample_options (lit "panel-3")))) in
  reachable sample_env None None sample_options (lit "panel-3") w /\
  panel (this w) = Some CreatedPanel /\
  get_title w = (w, Returned (VString (lit "Renamed"))).
Proof.
  intros w.
  assert (Hr : reachable sample_env None None sample_options (lit "panel-3") w).
  { exists [ResumeLoad; SetTitleTo (lit "Renamed")],
           [Returned VUndefined; Returned VUndefined].
    vm_compute. reflexivity. }
  assert (Hp : panel (this w) = Some CreatedPanel) by (vm_compute; reflexivity).
  split; [exact Hr|]. split; [exact Hp|].
  destruct (title_getter_returns_last_title_set Hr Hp) as (Hg & _).
  rewrite Hg. vm_compute. reflexivity.
Defined.

(** ** Beyond the claims: closing *)

Lemma load_resume_keeps_reference (E : Env) (w : World) :
  panel (this (load_resume E w)) = panel (this w) /\
  disposed (host (load_resume E w)) = disposed (host w).
Proof.
  unfold load_resume, load_body.
  destruct (forallb _ _); destruct (panel (this w)) eqn:Hp;
    try destruct (appHtml E (this w)); simpl;
    rewrite ?Hp; split; reflexivity.
Qed.

Lemma stale_reference_step (E : Env) (l : Label) (w w' : World) (oc : Outcome) :
  disposed (host w) = true -> panel (this w) = Some CreatedPanel ->
  step E l w = Some (w', oc) ->
  disposed (host w') = true /\ panel (this w') = Some CreatedPanel.
Proof.
  intros Hd Hp Hstep. destruct l; simpl in Hstep.
  3: { destruct (loadPromise (this w)); try discriminate.
       inversion Hstep; subst.
       destruct (load_resume_keeps_reference E w) as (-> & ->). auto. }
  all: rewrite ?updateCwd_returns in Hstep;
       unfold show_call, show_resume, close, isVisible, isActive, postMessage,
         get_title, set_title_prop, panel_dispose, host_dispose,
         webview_postMessage, panel_set_title, panel_reveal in Hstep;
       simpl in Hstep; rewrite ?Hd, ?Hp in Hstep; simpl in Hstep.
  all: repeat match type of Hstep with
       | context [match ?x with _ => _ end] => destruct x eqn:?
       end; try discriminate.
  all: inversion Hstep; subst; simpl; auto.
Qed.

(** X6.  A panel that was closed before its dispose closure existed (closed
    while the load was suspended, or a panel of the missing-scripts branch)
    keeps its stale reference for good: whatever is called or delivered
    afterwards, the reference stays set, the host panel stays disposed and
    the listener is never disposed. *)
Theorem stale_reference_is_never_cleared (E : Env) p t o u w ls w' os :
  reachable E p t o u w ->
  disposed (host w) = true ->
  panel (this w) = Some CreatedPanel ->
  run E ls w = Some (w', os) ->
  panel (this w') = Some CreatedPanel /\
  disposed (host w') = true /\
  count is_ListenerDispose (trace w') = 0.
Proof.
  revert w os. induction ls as [|l ls IH]; intros w os Hreach Hd Hp Hrun.
  - simpl in Hrun. inversion Hrun; subst.
    repeat split; auto. exact (inv_panel_some (reachable_inv Hreach) Hp).
  - simpl in Hrun.
    destruct (step E l w) as [[w1 oc]|] eqn:Hstep; [|discriminate].
    destruct (run E ls w1) as [[w2 os2]|] eqn:Hrun1; [|discriminate].
    inversion Hrun; subst.
    assert (H1 : disposed (host w1) = true /\ panel (this w1) = Some CreatedPanel)
      by (eapply stale_reference_step; eassumption).
    destruct H1 as (Hd1 & Hp1).
    eapply IH; [eapply reachable_step; eassumption | eassumption..].
Qed.

Lemma stale_reference_is_never_cleared_witness :
  let w := fst (close (construct None None sample_options (lit "panel-3"))) in
  reachable sample_env None None sample_options (lit "panel-3") w /\
  disposed (host w) = true /\
  panel (this w) = Some CreatedPanel /\
  run sample_env [ResumeLoad; CallClose] w
  = Some (fst (close (load_resume sample_env w)),
          [Returned VUndefined; Returned VUndefined]) /\
  panel (this (fst (close (load_resume sample_env w)))) = Some CreatedPanel.
Proof.
  intros w.
  assert (Hr : reachable sample_env None None sample_options (lit "panel-3") w).
  { exists [CallClose], [Returned VUndefined]. vm_compute. reflexivity. }
  assert (Hd : disposed (host w) = true) by (vm_compute; reflexivity).
  assert (Hp : panel (this w) = Some CreatedPanel) by (vm_compute; reflexivity).
  assert (Hrun : run sample_env [ResumeLoad; CallClose] w
                 = Some (fst (close (load_resume sample_env w)),
                         [Returned VUndefined; Returned VUndefined]))
    by (vm_compute; reflexivity).
  split; [exact Hr|]. split; [exact Hd|]. split; [exact Hp|].
  split; [exact Hrun|].
  exact (proj1 (@stale_reference_is_never_cleared _ _ _ _ _ _ _ _ _
                  Hr Hd Hp Hrun)).
Defined.

Lemma cleared_step (E : Env) (l : Label) (w w' : World) (oc : Outcome) :
  panel (this w) = None -> loadPromise (this w) = Fulfilled ->
  disposed (host w) = true ->
  step E l w = Some (w', oc) ->
  this w' = this w /\ host w' = host w /\ trace w' = trace w /\
  disposableRegistry w' = disposableRegistry w /\
  exists v, oc = Returned v.
Proof.
  intros Hp Hlp Hd Hstep.
  destruct w as [[pn lp i po tk op] [vt ti vc vi ac ht di su] reg aw tr].
  simpl in *. subst pn lp di.
  destruct l; try discriminate; simpl in Hstep;
    rewrite ?updateCwd_returns in Hstep;
    try (destruct aw; [discriminate|]);
    inversion Hstep; subst; simpl; eauto 8.
Qed.

Lemma cleared_run (E : Env) (ls : list Label) (w w' : World)
    (os : list Outcome) :
  panel (this w) = None -> loadPromise (this w) = Fulfilled ->
  disposed (host w) = true ->
  run E ls w = Some (w', os) ->
  this w' = this w /\ host w' = host w /\ trace w' = trace w /\
  disposableRegistry w' = disposableRegistry w /\
  Forall (fun oc => exists v, oc = Returned v) os.
Proof.
  revert w os. induction ls as [|l ls IH]; intros w os Hp Hlp Hd Hrun.
  - simpl in Hrun. inversion Hrun; subst. auto 6.
  - simpl in Hrun.
    destruct (step E l w) as [[wa oc]|] eqn:Hstep; [|discriminate].
    destruct (run E ls wa) as [[wb osb]|] eqn:Hrun1; [|discriminate].
    inversion Hrun; subst.
    destruct (@cleared_step E l w wa oc Hp Hlp Hd Hstep)
      as (Ht & Hh & Htr & Hreg & Hv).
    destruct (IH wa osb) as (Ht2 & Hh2 & Htr2 & Hreg2 & Hv2);
      try (rewrite ?Ht, ?Hh; assumption).
    repeat split; try congruence. constructor; assumption.
Qed.



(** X9.  Teardown is final.  From any state in which the reference has
    been cleared (by [close] or because the host closed the panel), no
    sequence of calls, continuations and host events changes the object,
    the host panel, the registry or the trace, and every step returns: in
    particular the listener, once disposed, is never called again. *)
Theorem teardown_is_final (E : Env) p t o u w ls w' os :
  reachable E p t o u w ->
  panel (this w) = None ->
  run E ls w = Some (w', os) ->
  this w' = this w /\ host w' = host w /\ trace w' = trace w /\
  disposableRegistry w' = disposableRegistry w /\
  Forall (fun oc => exists v, oc = Returned v) os.
Proof.
  intros Hreach Hp Hrun. pose proof (reachable_inv Hreach) as I.
  destruct (inv_panel_none I Hp) as (Hd & _).
  pose proof (cleared_means_fulfilled I Hp) as Hlp.
  exact (@cleared_run E ls w w' os Hp Hlp Hd Hrun).
Qed.

Lemma teardown_is_final_witness :
  let w := fst (close (load_resume sample_env
                         (construct None None sample_options (lit "panel-3")))) in
  reachable sample_env None None sample_options (lit "panel-3") w /\
  panel (this w) = None /\
  (exists w' os,
      run sample_env [CallShow false; ResumeShow; CallClose; GetTitle] w
      = Some (w', os) /\ trace w' = trace w).
Proof.
  intros w.
  assert (Hr : reachable sample_env None None sample_options (lit "panel-3") w).
  { exists [ResumeLoad; CallClose], [Returned VUndefined; Returned VUndefined].
    vm_compute. reflexivity. }
  assert (Hp : panel (this w) = None) by (vm_compute; reflexivity).
  split; [exact Hr|]. split; [exact Hp|].
  destruct (run sample_env [CallShow false; ResumeShow; CallClose; GetTitle] w)
    as [[w' os]|] eqn:Hrun.
  - exists w', os. split; [reflexivity|].
    destruct (@teardown_is_final _ _ _ _ _ _ _ _ _ Hr Hp Hrun)
      as (_ & _ & H & _).
    exact H.
  - exfalso. vm_compute in Hrun. discriminate.
Defined.

(** ** Beyond the claims: reveals and calls of [show] *)

Lemma reveal_budget_step (E : Env) p t o u w l w' oc :
  inv E p t o u w -> step E l w = Some (w', oc) ->
  count is_Reveal (trace w') + List.length (awaiting w')
  <= count is_Reveal (trace w) + List.length (awaiting w)
     + (if is_show_call l then 1 else 0).
Proof.
  intros I Hstep. unfold count.
  destruct l.
  3: { simpl in Hstep.
       destruct (loadPromise (this w)) eqn:Hlp; try discriminate.
       inversion Hstep; subst.
       destruct (load_resume_cases I Hlp) as [(page & ->) | [(e & ->) | ->]];
         simpl; lia. }
  all: simpl in Hstep; step_cases E o Hstep; simpl;
    rewrite ?length_app; simpl; lia.
Qed.

Lemma reveal_budget_run (E : Env) p t o u ls w w' os :
  reachable E p t o u w -> run E ls w = Some (w', os) ->
  count is_Reveal (trace w') + List.length (awaiting w')
  <= count is_Reveal (trace w) + List.length (awaiting w)
     + List.length (filter is_show_call ls).
Proof.
  revert w os. induction ls as [|l ls IH]; intros w os Hreach Hrun.
  - simpl in Hrun. inversion Hrun; subst. simpl. lia.
  - simpl in Hrun.
    destruct (step E l w) as [[w1 oc]|] eqn:Hstep; [|discriminate].
    destruct (run E ls w1) as [[w2 os2]|] eqn:Hrun1; [|discriminate].
    inversion Hrun; subst.
    pose proof (reachable_inv Hreach) as I.
    assert (H1 : count is_Reveal (trace w1) + List.length (awaiting w1)
                 <= count is_Reveal (trace w) + List.length (awaiting w)
                    + (if is_show_call l then 1 else 0))
      by (eapply reveal_budget_step; eassumption).
    assert (Hr1 : reachable E p t o u w1)
      by (eapply reachable_step; eassumption).
    pose proof (IH w1 os2 Hr1 Hrun1) as H2.
    simpl. destruct (is_show_call l); simpl; lia.
Qed.

(** X10.  The panel is revealed only on behalf of [show]: in every
    execution the number of [reveal] calls made so far plus the number of
    [show] calls still waiting is at most the number of [show] calls made,
    so no call of [show] reveals twice and nothing else reveals at all. *)
Theorem reveals_never_exceed_show_calls (E : Env) p t o u ls w os :
  run E ls (construct p t o u) = Some (w, os) ->
  count is_Reveal (trace w) + List.length (awaiting w)
  <= List.length (filter is_show_call ls).
Proof.
  intros Hrun.
  pose proof (@reveal_budget_run E p t o u ls _ w os
                (reachable_construct E p t o u) Hrun) as H.
  destruct (construct_fields p t o u) as (_ & _ & _ & _ & Haw).
  rewrite Haw in H.
  rewrite (count_construct is_Reveal p t o u) in H by reflexivity.
  simpl in H. exact H.
Qed.

Lemma reveals_never_exceed_show_calls_witness :
  exists w os,
    run sample_env [CallShow true; ResumeLoad; ResumeShow; CallShow false]
        (construct None None sample_options (lit "panel-3")) = Some (w, os) /\
    count is_Reveal (trace w) + List.length (awaiting w) <= 2.
Proof.
  destruct (run sample_env
              [CallShow true; ResumeLoad; ResumeShow; CallShow false]
              (construct None None sample_options (lit "panel-3")))
    as [[w os]|] eqn:Hrun.
  - exists w, os. split; [reflexivity|].
    exact (@reveals_never_exceed_show_calls _ _ _ _ _ _ _ _ Hrun).
  - exfalso. vm_compute in Hrun. discriminate.
Defined.

(** ** Beyond the claims: the pages *)

Lemma string_forall_app (q : unit16 -> bool) (a b : jsstring) :
  string_forall q (a ++ b) = andb (string_forall q a) (string_forall q b).
Proof. apply forallb_app. Qed.

Lemma hex_digit_chars (k : N) :
  (k < 16)%N -> uri_output_char (hex_digit k) = true.
Proof.
  intros Hk.
  assert (Hall : forallb (fun n => uri_output_char (hex_digit n))
                   (map N.of_nat (seq 0 16)) = true) by reflexivity.
  rewrite forallb_forall in Hall. apply Hall.
  apply in_map_iff. exists (N.to_nat k). split; [apply N2Nat.id|].
  apply in_seq. lia.
Qed.

Lemma percent_octet_chars (b : N) :
  (b < 256)%N -> string_forall uri_output_char (percent_octet b) = true.
Proof.
  intros Hb. unfold percent_octet. cbn [string_forall forallb].
  rewrite !hex_digit_chars; [reflexivity | |].
  - apply N.mod_lt. discriminate.
  - apply N.Div0.div_lt_upper_bound. exact Hb.
Qed.

Lemma escape_chars (v : N) :
  (v < 1114112)%N -> string_forall uri_output_char (escape v) = true.
Proof.
  intros Hv. unfold escape, utf8.
  assert (Hmod : forall a, (128 + a mod 64 < 256)%N).
  { intros a. assert (a mod 64 < 64)%N by (apply N.mod_lt; discriminate).
    lia. }
  destruct (N.ltb_spec v 128) as [H1|H1];
    [|destruct (N.ltb_spec v 2048) as [H2|H2];
      [|destruct (N.ltb_spec v 65536) as [H3|H3]]];
    cbn [flat_map]; rewrite ?app_nil_r, ?string_forall_app.
  - apply percent_octet_chars. lia.
  - rewrite !percent_octet_chars; [reflexivity | apply Hmod |].
    assert (v / 64 < 32)%N by (apply N.Div0.div_lt_upper_bound; lia). lia.
  - rewrite !percent_octet_chars; [reflexivity | apply Hmod | apply Hmod |].
    assert (v / 4096 < 16)%N by (apply N.Div0.div_lt_upper_bound; lia). lia.
  - rewrite !percent_octet_chars;
      [reflexivity | apply Hmod | apply Hmod | apply Hmod |].
    assert (v / 262144 < 5)%N by (apply N.Div0.div_lt_upper_bound; lia). lia.
Qed.

Lemma code_bound (u : unit16) : (code u < 65536)%N.
Proof.
  unfold code.
  pose proof (N_ascii_bounded (fst u)). pose proof (N_ascii_bounded (snd u)).
  lia.
Qed.

Lemma pair_code_point_bound (c d : unit16) :
  is_high_surrogate c = true -> is_low_surrogate d = true ->
  ((code c - 55296) * 1024 + (code d - 56320) + 65536 < 1114112)%N.
Proof.
  unfold is_high_surrogate, is_low_surrogate. intros Hc Hd.
  apply andb_prop in Hc. apply andb_prop in Hd.
  destruct Hc as (_ & Hc). destruct Hd as (_ & Hd).
  apply N.leb_le in Hc. apply N.leb_le in Hd. lia.
Qed.

Lemma encodeURIComponent_chars (s x : jsstring) :
  encodeURIComponent s = Normal x -> string_forall uri_output_char x = true.
Proof.
  revert x. induction s as [|c rest IH1 IH2] using jsstring_pair_ind;
    intros x H.
  - inversion H. reflexivity.
  - cbn [encodeURIComponent] in H.
    destruct (uri_unreserved c) eqn:Hu.
    { destruct (prepend_inv _ _ H) as (y & Hy & ->).
      rewrite string_forall_app, (IH1 _ Hy), andb_true_r.
      cbn [string_forall forallb]. unfold uri_output_char. rewrite Hu.
      reflexivity. }
    destruct (is_low_surrogate c); [discriminate|].
    destruct (is_high_surrogate c) eqn:Hhigh.
    + destruct rest as [|d rest']; [discriminate|].
      destruct (is_low_surrogate d) eqn:Hlow; [|discriminate].
      destruct (prepend_inv _ _ H) as (y & Hy & ->).
      rewrite string_forall_app, (IH2 _ Hy), andb_true_r.
      apply escape_chars, pair_code_point_bound; assumption.
    + destruct (prepend_inv _ _ H) as (y & Hy & ->).
      rewrite string_forall_app, (IH1 _ Hy), andb_true_r.
      apply escape_chars. pose proof (code_bound c). lia.
Qed.

Lemma map_throwing_normal (A B : Type) (f : A -> Completion B) (l : list A)
    (ys : list B) :
  map_throwing f l = Normal ys ->
  Forall2 (fun x y => f x = Normal y) l ys.
Proof.
  revert ys. induction l as [|x l IH]; simpl; intros ys H.
  - inversion H. constructor.
  - destruct (f x) as [y|e] eqn:Hx; [|discriminate].
    destruct (map_throwing f l) as [zs|e]; [|discriminate].
    inversion H; subst. constructor; auto.
Qed.

Lemma join_chars (q : unit16 -> bool) (sep : jsstring) (l : list jsstring) :
  string_forall q sep = true ->
  Forall (fun s => string_forall q s = true) l ->
  string_forall q (join sep l) = true.
Proof.
  intros Hsep Hl. induction Hl as [|x l Hx Hl IH]; [reflexivity|].
  destruct l as [|y l]; [exact Hx|].
  change (join sep (x :: y :: l)) with (x ++ sep ++ join sep (y :: l)).
  rewrite !string_forall_app, Hx, Hsep, IH. reflexivity.
Qed.

Lemma string_forall_count (q : unit16 -> bool) (c : unit16) (s : jsstring) :
  string_forall q s = true -> q c = false -> count_char c s = 0.
Proof.
  intros Hs Hc. unfold count_char.
  induction s as [|d s IH]; [reflexivity|].
  cbn [string_forall forallb] in Hs. apply andb_prop in Hs.
  destruct Hs as (Hd & Hs). cbn [filter].
  destruct (unit_eqb c d) eqn:Heq.
  - apply unit_eqb_eq in Heq. congruence.
  - apply IH. exact Hs.
Qed.

Lemma scriptsQuery_chars (this0 : WebPanel) (q : jsstring) :
  scriptsQuery this0 = Normal q -> string_forall uri_output_char q = true.
Proof.
  unfold scriptsQuery, encodedScripts.
  destruct (map_throwing _ _) as [encoded|e] eqn:Hm; [|discriminate].
  intros H. inversion H; subst. clear H.
  apply join_chars; [reflexivity|].
  apply map_throwing_normal in Hm.
  induction Hm as [|x y l ys Hxy _ IH]; constructor; [|exact IH].
  exact (encodeURIComponent_chars _ Hxy).
Qed.

Lemma scriptsQuery_throws_URIError (this0 : WebPanel) (e : Error) :
  scriptsQuery this0 = Abrupt e -> e = URIError.
Proof.
  unfold scriptsQuery, encodedScripts.
  destruct (map_throwing _ _) as [encoded|e'] eqn:Hm; [discriminate|].
  intros H. inversion H; subst.
  destruct (map_throwing_throws _ _ Hm) as (x & _ & Hx).
  exact (encodeURIComponent_throws_URIError _ Hx).
Qed.

(** X11.  Whatever the script paths and the root path are, the value of
    [scripts=] in the iframe URL, where the page is generated, is the
    second piece behind the id and consists only of letters, digits, the
    marks  - _ . ! ~ * ' ( )  and percent signs: no double quote, space,
    ampersand, equals sign, question mark, hash, slash, backslash or angle
    bracket of a path can reach the attribute or split the query.  Where
    no page is generated, the exception is a [URIError]. *)
Theorem scripts_query_has_only_url_characters (this0 : WebPanel) :
  match encodedScripts this0 with
  | Normal encoded =>
      scriptsQuery this0 = Normal (nth 1 (serverHtmlAfterId this0 encoded) [])
  | Abrupt e => scriptsQuery this0 = Abrupt e
  end /\
  match scriptsQuery this0 with
  | Normal q =>
      string_forall uri_output_char q = true /\
      (forall c,
          In c (lit "&=?#/<> " ++ dq ++ [of_ascii (ascii_of_nat 92)]) ->
          count_char c q = 0)
  | Abrupt e => e = URIError
  end.
Proof.
  split.
  - unfold scriptsQuery. destruct (encodedScripts this0); reflexivity.
  - destruct (scriptsQuery this0) as [q|e] eqn:Hq.
    + pose proof (scriptsQuery_chars _ Hq) as H.
      split; [exact H|].
      intros c Hin. apply (string_forall_count _ _ _ H).
      simpl in Hin.
      repeat (destruct Hin as [<- | Hin]; [reflexivity|]). contradiction.
    + exact (scriptsQuery_throws_URIError _ Hq).
Qed.




Lemma template_cons (x : jsstring) (l : list jsstring) :
  template (x :: l) = x ++ template l.
Proof. reflexivity. Qed.

(** X13.  The local page is a fixed text around one script element per
    declared script, in the order of the options, one per line: the text
    before and after depends on the root path only (through its webview
    URI) and not on the scripts, the id, the token, the port, the working
    directory or the title. *)
Theorem local_page_lists_one_tag_per_script (E : Env) (root : jsstring) :
  exists before after,
    forall this0,
      rootPath (options this0) = root ->
      generateLocalReactHtml E this0
      = before
        ++ join nl (map (fun s => scriptTag (asWebviewUri E s))
                        (scripts (options this0)))
        ++ after.
Proof.
  eexists. eexists. intros this0 Hroot.
  unfold generateLocalReactHtml. rewrite Hroot, map_map.
  match goal with
  | |- template ?l = _ => rewrite <- (firstn_skipn 106 l)
  end.
  rewrite template_app. cbn [firstn skipn]. rewrite template_cons.
  reflexivity.
Qed.

Lemma local_page_lists_one_tag_per_script_witness :
  exists before after,
    generateLocalReactHtml sample_env
      (this (construct None None sample_options (lit "panel-3")))
    = before
      ++ scriptTag (lit "vscode-resource:/ext/out/index.js")
      ++ after.
Proof.
  destruct (local_page_lists_one_tag_per_script sample_env (lit "/ext/out"))
    as (before & after & H).
  exists before, after.
  exact (H (this (construct None None sample_options (lit "panel-3"))) eq_refl).
Defined.

(** ** Beyond the claims: the constructor *)

(** X14.  The constructor asks the host for a port mapping only for a port
    that is defined and not zero, and then maps webview port 9890 to it;
    without a port, or with port 0, no mapping is requested. *)
Theorem port_mapping_only_for_nonzero_port
    (p : option Z) (t : option jsstring) (o : IWebPanelOptions) (u : jsstring) :
  exists vt pm,
    last (trace (construct p t o u)) PanelDispose
    = CreateWebviewPanel vt (title o) (viewColumn o) true true true
        [rootPath o] pm /\
    (pm = None <-> p = None \/ p = Some 0%Z) /\
    (forall n, p = Some n -> n <> 0%Z -> pm = Some (9890%Z, n)).
Proof.
  rewrite construct_trace_eq, last_last.
  eexists. eexists. split; [reflexivity|].
  destruct p as [n|]; simpl.
  - destruct (Z.eqb_spec n 0) as [-> | Hn]; simpl.
    + split; [split; auto|]. intros n Hn Hne. inversion Hn. congruence.
    + split.
      * split; [discriminate|]. intros [H | H]; [discriminate|].
        inversion H. contradiction.
      * intros n' Hn' _. inversion Hn'. reflexivity.
  - split; [split; auto|]. intros n Hn. discriminate.
Qed.

(** X15.  With an empty script list the load always takes the success
    branch, whatever the file system holds and whichever page is asked
    for: the application page is generated and assigned, the load is
    fulfilled and the closures are registered; the local page then has no
    script element and the server page an empty [scripts=] value. *)
Theorem empty_script_list_loads (E : Env) p t o u w :
  reachable E p t o u w ->
  loadPromise (this w) = Pending ->
  scripts o = [] ->
  appHtml E (this w) = Normal (html (host (load_resume E w))) /\
  loadPromise (this (load_resume E w)) = Fulfilled /\
  subscriptions (host (load_resume E w)) = load_closures /\
  relativeScripts (this w) = [] /\
  scriptsQuery (this w) = Normal [] /\
  ~ some_script_missing E o.
Proof.
  intros Hreach Hlp Hs. pose proof (reachable_inv Hreach) as I.
  destruct (inv_pending I Hlp) as (Hp & Hsubs & _ & _).
  pose proof (inv_options I) as Ho.
  assert (Hq : scriptsQuery (this w) = Normal []).
  { unfold scriptsQuery, encodedScripts. rewrite Ho, Hs. reflexivity. }
  assert (Hpage : exists page, appHtml E (this w) = Normal page).
  { unfold appHtml, generateServerReactHtml, encodedScripts.
    rewrite Ho, Hs.
    destruct (startHttpServer o); cbn [map map_throwing]; eexists;
      reflexivity. }
  destruct Hpage as (page & Hpage).
  assert (Hall : forallb (pathExists E) (scripts (options (this w))) = true)
    by (rewrite Ho, Hs; reflexivity).
  rewrite (@load_resume_success E w page Hp Hall Hpage), Hpage.
  simpl. rewrite Hsubs. unfold relativeScripts. rewrite Ho, Hs.
  repeat split; try assumption. unfold some_script_missing. rewrite Hs.
  intros (s & [] & _).
Qed.

Lemma empty_script_list_loads_witness :
  let o := {| title := lit "Empty"; viewColumn := 1; rootPath := lit "/ext/out";
              scripts := []; cwd := lit "/home/u"; startHttpServer := true |} in
  reachable sample_env None None o (lit "panel-4")
    (construct None None o (lit "panel-4")) /\
  loadPromise (this (construct None None o (lit "panel-4"))) = Pending /\
  scripts o = [] /\
  subscriptions
    (host (load_resume sample_env (construct None None o (lit "panel-4"))))
  = load_closures.
Proof.
  intros o. split; [apply reachable_construct|]. split; [reflexivity|].
  split; [reflexivity|].
  destruct (empty_script_list_loads
              (reachable_construct sample_env None None o (lit "panel-4"))
              eq_refl eq_refl) as (_ & _ & H & _).
  exact H.
Defined.

(** ** Beyond the claims: the page stays *)

Lemma appHtml_ext (E : Env) (a b : WebPanel) :
  options a = options b -> id a = id b -> token a = token b ->
  appHtml E a = appHtml E b.
Proof.
  intros Ho Hi Ht.
  unfold appHtml, generateServerReactHtml, encodedScripts,
    generateLocalReactHtml,
    serverHtmlBeforeId, serverHtmlAfterId.
  rewrite Ho, Hi, Ht. reflexivity.
Qed.

(** X17.  The page of a panel is assigned by the load and stays: while the
    load is suspended, and after a load that was rejected because the
    server page could not be generated, the HTML is empty; from the moment
    the load is fulfilled the HTML is the application page (if every
    script exists) or the error page (if one is missing) in every later
    state, whatever is called or delivered. *)
Theorem page_is_stable_after_load (E : Env) p t o u w :
  reachable E p t o u w ->
  (loadPromise (this w) = Pending -> html (host w) = []) /\
  (forall e, loadPromise (this w) = Rejected e ->
             html (host w) = [] /\
             appHtml E (this (construct p t o u)) = Abrupt e) /\
  (loadPromise (this w) = Fulfilled ->
   if forallb (pathExists E) (scripts o)
   then appHtml E (this (construct p t o u)) = Normal (html (host w))
   else html (host w) = errorHtml E o).
Proof.
  intros Hreach. revert w Hreach. apply reachable_ind.
  - destruct (construct_fields p t o u) as (Hthis & _ & _ & Hhtml & _).
    cbv beta. split; [intros _; exact Hhtml|].
    rewrite Hthis. simpl. split; [intros e|]; discriminate.
  - intros w l w' oc Hr (IHp & IHr & IHf) Hstep.
    pose proof (reachable_inv Hr) as I.
    destruct l.
    3: { simpl in Hstep.
         destruct (loadPromise (this w)) eqn:Hlp; try discriminate.
         inversion Hstep; subst. clear Hstep.
         destruct (inv_pending I Hlp) as (Hp & _).
         pose proof (inv_options I) as Ho.
         destruct (construct_fields p t o u) as (Hthis & _).
         assert (Hext : appHtml E (this w)
                        = appHtml E (this (construct p t o u))).
         { apply appHtml_ext; rewrite Hthis; simpl;
             [exact Ho | exact (inv_id I) | exact (inv_token I)]. }
         destruct (forallb (pathExists E) (scripts o)) eqn:Hall.
         - rewrite <- Ho in Hall.
           destruct (appHtml E (this w)) as [page|e] eqn:Hpage.
           + rewrite (@load_resume_success E w page Hp Hall Hpage).
             rewrite <- Hext. simpl.
             split; [discriminate|]. split; [intros e|]; [discriminate|].
             reflexivity.
           + rewrite (@load_resume_throw E w e Hp Hall Hpage).
             rewrite <- Hext. simpl.
             split; [discriminate|]. split; [|discriminate].
             intros e' He'. inversion He'; subst. split; [|reflexivity].
             apply (inv_unassigned I). congruence.
         - rewrite load_resume_error by (rewrite ?Ho; assumption).
           simpl. rewrite Ho.
           split; [discriminate|]. split; [intros e|]; [discriminate|].
           reflexivity. }
    all: (assert (Hh : html (host w') = html (host w))
            by (eapply step_keeps_html; [eassumption | discriminate]));
         (assert (Hl : loadPromise (this w') = loadPromise (this w))
            by (eapply step_fields; [eassumption | discriminate]));
         rewrite Hh, Hl; split; [|split]; assumption.
Qed.

Lemma page_is_stable_after_load_witness :
  exists w os,
    run sample_env
        [ResumeLoad; SetTitleTo (lit "t"); HostViewState false false 3; CallClose]
        (construct None None sample_missing_options (lit "panel-1")) = Some (w, os) /\
    loadPromise (this w) = Fulfilled /\
    html (host w)
    = (lit "<h1>/ext/out/index.js, /ext/out/absent.js is not a valid file name</h1>").
Proof.
  destruct (run sample_env
              [ResumeLoad; SetTitleTo (lit "t"); HostViewState false false 3;
               CallClose]
              (construct None None sample_missing_options (lit "panel-1")))
    as [[w os]|] eqn:Hrun.
  - exists w, os. split; [reflexivity|].
    assert (Hr : reachable sample_env None None sample_missing_options
                   (lit "panel-1") w)
      by (exists [ResumeLoad; SetTitleTo (lit "t"); HostViewState false false 3;
                  CallClose], os; exact Hrun).
    assert (Hlp : loadPromise (this w) = Fulfilled).
    { vm_compute in Hrun. inversion Hrun. reflexivity. }
    split; [exact Hlp|].
    destruct (page_is_stable_after_load Hr) as (_ & _ & H).
    exact (H Hlp).
  - exfalso. vm_compute in Hrun. discriminate.
Defined.

(** ** Beyond the claims: the iframe URL *)

Lemma string_app_nil_r (s : jsstring) : s ++ [] = s.
Proof. apply app_nil_r. Qed.

Lemma count_char_app (c : unit16) (a b : jsstring) :
  count_char c (a ++ b) = count_char c a + count_char c b.
Proof. unfold count_char. rewrite filter_app, length_app. reflexivity. Qed.

Lemma serverHtmlBeforeId_root (E : Env) (a b : WebPanel) :
  rootPath (options a) = rootPath (options b) ->
  serverHtmlBeforeId E a = serverHtmlBeforeId E b.
Proof. intros H. unfold serverHtmlBeforeId. rewrite H. reflexivity. Qed.

Lemma scripts_chars (this0 : WebPanel) (q : jsstring) :
  scriptsQuery this0 = Normal q ->
  count_char (of_ascii (ascii_of_nat 34)) q = 0.
Proof.
  intros Hq. apply (string_forall_count uri_output_char); [|reflexivity].
  exact (scriptsQuery_chars _ Hq).
Qed.

(** X18.  Where the server page is generated, it is a fixed text
    (depending on the root path only) around the [src] of the iframe, and
    that address is built from the id, the encoded scripts and then the
    working directory, the root path and the token exactly as they are:
    nothing but the scripts is encoded, so every double quote of those
    values stands in the attribute unescaped, and a missing token is
    written as the word undefined.  The page is generated exactly when
    the scripts can be encoded. *)
Theorem server_page_inserts_values_unencoded (E : Env) (root : jsstring) :
  exists before after,
    forall this0,
      rootPath (options this0) = root ->
      match scriptsQuery this0 with
      | Abrupt e => generateServerReactHtml E this0 = Abrupt e
      | Normal query =>
          generateServerReactHtml E this0
          = Normal (before ++ lit "<iframe id='hostframe' src=" ++ dq
                    ++ iframeUrl this0 query ++ dq ++ after) /\
          count_char (of_ascii (ascii_of_nat 34)) (iframeUrl this0 query)
          = count_char (of_ascii (ascii_of_nat 34)) (id this0)
            + count_char (of_ascii (ascii_of_nat 34)) (cwd (options this0))
            + count_char (of_ascii (ascii_of_nat 34)) root
            + count_char (of_ascii (ascii_of_nat 34))
                (show_optional (token this0)) /\
          (token this0 = None ->
           exists front,
             iframeUrl this0 query = front ++ lit "&token=undefined")
      end.
Proof.
  exists (template (firstn 110 (serverHtmlBeforeId E (blank_panel root)))
          ++ lit "                ").
  exists (template (skipn 9 (serverHtmlAfterId (blank_panel root) []))).
  intros this0 Hroot.
  destruct (scriptsQuery this0) as [query|e] eqn:Hq.
  2: { unfold scriptsQuery in Hq. unfold generateServerReactHtml.
       destruct (encodedScripts this0); [discriminate | exact Hq]. }
  split; [|split].
  - unfold scriptsQuery in Hq. unfold generateServerReactHtml.
    destruct (encodedScripts this0) as [encoded|]; [|discriminate].
    inversion Hq; subst query. clear Hq. f_equal.
    rewrite (serverHtmlBeforeId_root E this0 (blank_panel root))
      by exact Hroot.
    rewrite <- (firstn_skipn 110 (serverHtmlBeforeId E (blank_panel root)))
      at 1.
    rewrite <- (firstn_skipn 9 (serverHtmlAfterId this0 encoded)).
    change (skipn 9 (serverHtmlAfterId this0 encoded))
      with (skipn 9 (serverHtmlAfterId (blank_panel root) [])).
    rewrite !template_app, <- !app_assoc. f_equal.
    generalize (template (skipn 9 (serverHtmlAfterId (blank_panel root) []))).
    intros T.
    change (skipn 110 (serverHtmlBeforeId E (blank_panel root)))
      with [lit "                " ++ lit "<iframe id='hostframe' src="; dq;
            lit "http://localhost:"; show_number RemappedPort; lit "/"].
    change (firstn 9 (serverHtmlAfterId this0 encoded))
      with [lit "?scripts="; join (lit "%") encoded; lit "&cwd=";
            cwd (options this0); lit "&rootPath="; rootPath (options this0);
            lit "&token="; show_optional (token this0); dq].
    unfold iframeUrl, template. cbn [List.concat].
    rewrite ?app_nil_r, <- ?app_assoc. reflexivity.
  - pose proof (scripts_chars _ Hq) as Hc.
    unfold iframeUrl, template. cbn [List.concat].
    rewrite app_nil_r, !count_char_app, Hc, Hroot. simpl. lia.
  - intros Htok. unfold iframeUrl. rewrite Htok.
    eexists (template [lit "http://localhost:"; show_number RemappedPort;
                       lit "/"; id this0; lit "?scripts="; query;
                       lit "&cwd="; cwd (options this0); lit "&rootPath=";
                       rootPath (options this0)]).
    unfold template. cbn [List.concat show_optional].
    rewrite ?app_nil_r, <- ?app_assoc. reflexivity.
Qed.

Lemma server_page_inserts_values_unencoded_witness :
  exists front,
    iframeUrl
      (this (construct (Some 8080%Z) None sample_server_options
               (lit "panel-2")))
      (lit ".%2Findex.js")
    = front ++ lit "&token=undefined".
Proof.
  destruct (server_page_inserts_values_unencoded sample_env (lit "/ext/out"))
    as (before & after & H).
  pose proof (H (this (construct (Some 8080%Z) None sample_server_options
                         (lit "panel-2"))) eq_refl) as H'.
  change (scriptsQuery (this (construct (Some 8080%Z) None
                                sample_server_options (lit "panel-2"))))
    with (Normal (lit ".%2Findex.js")) in H'.
  destruct H' as (_ & _ & Htok).
  exact (Htok eq_refl).
Defined.

(** ** Beyond the claims: when the load is rejected *)

Lemma uri_unreserved_below_128 (c : unit16) :
  uri_unreserved c = true -> (code c < 128)%N.
Proof.
  unfold uri_unreserved. generalize (code c). intros n H.
  destruct (N.ltb_spec n 128) as [Hlt|Hge]; [exact Hlt|].
  exfalso. revert H. cbn [existsb].
  replace (n <=? 90)%N with false by (symmetry; apply N.leb_gt; lia).
  replace (n <=? 122)%N with false by (symmetry; apply N.leb_gt; lia).
  replace (n <=? 57)%N with false by (symmetry; apply N.leb_gt; lia).
  repeat match goal with
         | |- context [(n =? ?k)%N] =>
             replace (n =? k)%N with false
               by (symmetry; apply N.eqb_neq; lia)
         end.
  rewrite !andb_false_r. discriminate.
Qed.

Lemma below_128_not_surrogate (c : unit16) :
  (code c < 128)%N -> is_low_surrogate c = false /\ is_high_surrogate c = false.
Proof.
  intros H. unfold is_low_surrogate, is_high_surrogate.
  replace (56320 <=? code c)%N with false by (symmetry; apply N.leb_gt; lia).
  replace (55296 <=? code c)%N with false by (symmetry; apply N.leb_gt; lia).
  split; reflexivity.
Qed.

Lemma prepend_completion (pre : jsstring) (r : Completion jsstring) (b : bool) :
  match r with Normal _ => b = true | Abrupt _ => b = false end ->
  match prepend pre r with Normal _ => b = true | Abrupt _ => b = false end.
Proof. destruct r; simpl; auto. Qed.

(** [encodeURIComponent] returns on the well-formed strings and throws on
    the others. *)
Lemma encodeURIComponent_well_formed (s : jsstring) :
  match encodeURIComponent s with
  | Normal _ => well_formed s = true
  | Abrupt _ => well_formed s = false
  end.
Proof.
  induction s as [|c rest IH1 IH2] using jsstring_pair_ind; [reflexivity|].
  cbn [encodeURIComponent well_formed].
  destruct (uri_unreserved c) eqn:Hu.
  { destruct (@below_128_not_surrogate c (@uri_unreserved_below_128 c Hu))
      as (-> & ->).
    apply prepend_completion, IH1. }
  destruct (is_low_surrogate c); [reflexivity|].
  destruct (is_high_surrogate c).
  - destruct rest as [|d rest']; [reflexivity|].
    destruct (is_low_surrogate d); [|reflexivity].
    cbn [andb]. apply prepend_completion, IH2.
  - apply prepend_completion, IH1.
Qed.

Lemma backslash_turned_surrogate (u : unit16) :
  let v := if unit_eqb u (of_ascii (ascii_of_nat 92))
           then of_ascii (ascii_of_nat 47) else u in
  is_low_surrogate v = is_low_surrogate u /\
  is_high_surrogate v = is_high_surrogate u.
Proof.
  cbv zeta. destruct (unit_eqb u (of_ascii (ascii_of_nat 92))) eqn:Hu.
  - apply unit_eqb_eq in Hu. subst u. split; reflexivity.
  - split; reflexivity.
Qed.

Lemma well_formed_backslashes (s : jsstring) :
  well_formed (backslashes_to_slashes s) = well_formed s.
Proof.
  induction s as [|c rest IH1 IH2] using jsstring_pair_ind; [reflexivity|].
  unfold backslashes_to_slashes in *. cbn [map well_formed].
  destruct (backslash_turned_surrogate c) as (-> & ->).
  destruct (is_low_surrogate c); [reflexivity|].
  destruct (is_high_surrogate c); [|exact IH1].
  destruct rest as [|d rest']; [reflexivity|].
  cbn [map]. destruct (backslash_turned_surrogate d) as (-> & _).
  cbn [tl] in IH2. rewrite IH2. reflexivity.
Qed.

Lemma encodedScripts_well_formed (this0 : WebPanel) :
  match encodedScripts this0 with
  | Normal _ => forallb well_formed (relativeScripts this0) = true
  | Abrupt _ => forallb well_formed (relativeScripts this0) = false
  end.
Proof.
  change (encodedScripts this0)
    with (map_throwing
            (fun s => encodeURIComponent (backslashes_to_slashes s))
            (relativeScripts this0)).
  induction (relativeScripts this0) as [|x l IH]; [reflexivity|].
  cbn [map_throwing forallb].
  pose proof (encodeURIComponent_well_formed (backslashes_to_slashes x)) as Hx.
  rewrite well_formed_backslashes in Hx.
  destruct (encodeURIComponent (backslashes_to_slashes x)); rewrite Hx;
    [|reflexivity].
  destruct (map_throwing _ l); exact IH.
Qed.

(** X19.  The load is fulfilled or rejected when it is resumed, and it is
    rejected in one case only: every script exists, the server page is
    asked for, and some script, cut at the length of the root path, has a
    surrogate code unit without its partner.  The exception is then a
    [URIError], and no page is assigned. *)
Theorem load_is_rejected_only_for_unpaired_surrogate (E : Env) p t o u w :
  reachable E p t o u w ->
  loadPromise (this w) = Pending ->
  let unpaired :=
    andb (forallb (pathExists E) (scripts o))
         (andb (startHttpServer o)
               (negb (forallb well_formed (relativeScripts (this w))))) in
  loadPromise (this (load_resume E w))
  = (if unpaired then Rejected URIError else Fulfilled) /\
  (unpaired = true ->
   html (host (load_resume E w)) = [] /\
   trace (load_resume E w) = trace w).
Proof.
  intros Hreach Hlp unpaired. subst unpaired.
  pose proof (reachable_inv Hreach) as I.
  destruct (inv_pending I Hlp) as (Hp & _).
  pose proof (inv_options I) as Ho.
  pose proof (encodedScripts_well_formed (this w)) as Hwf.
  destruct (forallb (pathExists E) (scripts o)) eqn:Hall.
  2: { rewrite load_resume_error by (rewrite ?Ho; assumption).
       split; [reflexivity | discriminate]. }
  rewrite <- Ho in Hall.
  destruct (appHtml E (this w)) as [page|e] eqn:Hpage.
  - rewrite (@load_resume_success E w page Hp Hall Hpage).
    unfold appHtml, generateServerReactHtml in Hpage. rewrite Ho in Hpage.
    destruct (startHttpServer o); [|split; [reflexivity | discriminate]].
    destruct (encodedScripts (this w)); [|discriminate].
    rewrite Hwf. split; [reflexivity | discriminate].
  - rewrite (@load_resume_throw E w e Hp Hall Hpage).
    pose proof (@appHtml_throws_URIError E (this w) e Hpage) as ->.
    unfold appHtml, generateServerReactHtml in Hpage. rewrite Ho in Hpage.
    destruct (startHttpServer o); [|discriminate].
    destruct (encodedScripts (this w)); [discriminate|].
    rewrite Hwf. cbn [andb negb]. split; [reflexivity|].
    intros _. split; [|reflexivity].
    apply (inv_unassigned I). congruence.
Qed.

Lemma load_is_rejected_only_for_unpaired_surrogate_witness :
  let w := construct None None astral_options (lit "panel-5") in
  reachable astral_env None None astral_options (lit "panel-5") w /\
  loadPromise (this w) = Pending /\
  forallb well_formed (scripts astral_options) = true /\
  forallb well_formed (relativeScripts (this w)) = false /\
  loadPromise (this (load_resume astral_env w)) = Rejected URIError.
Proof.
  intros w. split; [apply reachable_construct|]. split; [reflexivity|].
  split; [reflexivity|]. split; [reflexivity|].
  destruct (load_is_rejected_only_for_unpaired_surrogate
              (reachable_construct astral_env None None astral_options
                 (lit "panel-5")) eq_refl) as (H & _).
  exact H.
Defined.
